(** * Complaint portal: a shallow embedding of [complaint.go]

    The program is a set of HTTP handlers over two MongoDB collections,
    [users] and [complaints].  The handlers are embedded as computations in
    a state monad over a [World]: the two collections, plus the outcomes the
    environment will hand to the process next (the identifiers
    [primitive.NewObjectID] returns, the values of [math/rand]'s source,
    whether each storage call and each decode of a cursor's document
    reports an error, and the sizes of the batches a cursor fetches).
    Requests are served one at a time; interleaving of concurrent
    requests is outside the model. *)

From Stdlib Require Import ZArith NArith List String Ascii Bool Lia.
Import ListNotations.

Local Open Scope Z_scope.
Local Open Scope list_scope.

(* ===================================================================== *)
(** ** Data model *)

(** [primitive.ObjectID] is a [[12]byte]; it is represented by the 96-bit
    number the twelve bytes spell, most significant byte first. *)
Definition ObjectID : Type := N.

Definition NilObjectID : ObjectID := 0%N.

(** [type User struct]. *)
Record User : Type := mkUser {
  uID : ObjectID;
  uSecretCode : string;
  uName : string;
  uEmail : string;
  uComplaints : list ObjectID
}.

(** [type Complaint struct]. *)
Record Complaint : Type := mkComplaint {
  cID : ObjectID;
  cTitle : string;
  cSummary : string;
  cRating : Z;
  cResolved : bool;
  cUserID : ObjectID
}.

(** Field assignments [user.ID = ...], [complaint.Resolved = ...]. *)
Definition set_uID (v : ObjectID) (u : User) : User :=
  mkUser v (uSecretCode u) (uName u) (uEmail u) (uComplaints u).

Definition set_uSecretCode (v : string) (u : User) : User :=
  mkUser (uID u) v (uName u) (uEmail u) (uComplaints u).

Definition set_uComplaints (v : list ObjectID) (u : User) : User :=
  mkUser (uID u) (uSecretCode u) (uName u) (uEmail u) v.

Definition set_cID (v : ObjectID) (c : Complaint) : Complaint :=
  mkComplaint v (cTitle c) (cSummary c) (cRating c) (cResolved c) (cUserID c).

Definition set_cResolved (v : bool) (c : Complaint) : Complaint :=
  mkComplaint (cID c) (cTitle c) (cSummary c) (cRating c) v (cUserID c).

(** Errors a call can come back with ([err != nil]). *)
Inductive error : Type :=
| ErrNoDocuments      (* mongo.ErrNoDocuments: FindOne matched nothing *)
| ErrDuplicateKey     (* E11000: InsertOne on an _id already present *)
| ErrDriver           (* any other failure reported by the driver *)
| ErrInvalidHex.      (* primitive.ErrInvalidHex and hex decoding errors *)

Inductive result (A : Type) : Type :=
| Ok (a : A)
| Err (e : error).

Arguments Ok {A} a.
Arguments Err {A} e.

(** [err.Error()]. *)
Definition Error (e : error) : string :=
  match e with
  | ErrNoDocuments => "mongo: no documents in result"
  | ErrDuplicateKey => "E11000 duplicate key error"
  | ErrDriver => "driver error"
  | ErrInvalidHex => "the provided hex string is not a valid ObjectID"
  end%string.

(** What [json.NewDecoder(r.Body).Decode(&v)] makes of a request body: an
    error, or the struct with every field the client supplied filled in
    (server-managed fields included) and the others zero. *)
Inductive Body (A : Type) : Type :=
| Malformed (msg : string)
| Decoded (v : A).

Arguments Malformed {A} msg.
Arguments Decoded {A} v.

(** What a handler writes to [w http.ResponseWriter]. *)
Inductive Payload : Type :=
| JUser (u : User)
| JComplaint (c : Complaint)
| JComplaints (l : list Complaint).

Inductive Response : Type :=
| Json (p : Payload)                       (* json.NewEncoder(w).Encode(p), status 200 *)
| HttpError (msg : string) (code : Z).     (* http.Error(w, msg, code) *)

Definition StatusBadRequest : Z := 400.
Definition StatusNotFound : Z := 404.
Definition StatusInternalServerError : Z := 500.

(* ===================================================================== *)
(** ** [fmt.Sprintf("%06d", n)] *)

Definition digit_char (d : Z) : ascii := ascii_of_nat (48 + Z.to_nat d).

(** Decimal digits of a non-negative number, least significant first into
    the accumulator.  A number below [2 ^ fuel] has at most [fuel] digits. *)
Fixpoint decimal_fuel (fuel : nat) (n : Z) (acc : string) : string :=
  match fuel with
  | O => acc
  | S fuel' =>
      let acc' := String (digit_char (n mod 10)) acc in
      if n <? 10 then acc' else decimal_fuel fuel' (n / 10) acc'
  end.

Definition decimal (n : Z) : string :=
  decimal_fuel (S (Z.to_nat (Z.log2 n))) n EmptyString.

Fixpoint zeros (k : nat) : string :=
  match k with
  | O => EmptyString
  | S k' => String "0"%char (zeros k')
  end.

(** Left padding with ['0'] up to [width] characters; a longer string is
    left as it is. *)
Definition pad_zeros (width : nat) (s : string) : string :=
  (zeros (width - String.length s) ++ s)%string.

(** The verb [%06d]: width 6, zero flag; the sign, when there is one, comes
    before the padding and counts in the width. *)
Definition Sprintf_06d (n : Z) : string :=
  if n <? 0 then String "-"%char (pad_zeros 5 (decimal (- n)))
  else pad_zeros 6 (decimal n).

Definition is_digit (c : ascii) : bool :=
  let k := nat_of_ascii c in (48 <=? k)%nat && (k <=? 57)%nat.

Fixpoint all_digits (s : string) : bool :=
  match s with
  | EmptyString => true
  | String c s' => is_digit c && all_digits s'
  end.

(** The pattern [^[0-9]{6}$]. *)
Definition six_digits (s : string) : bool :=
  (String.length s =? 6)%nat && all_digits s.

(** The number a string of decimal digits spells. *)
Fixpoint decimal_value (s : string) (acc : Z) : Z :=
  match s with
  | EmptyString => acc
  | String c s' => decimal_value s' (10 * acc + (Z.of_nat (nat_of_ascii c) - 48))
  end.

(* ===================================================================== *)
(** ** [primitive.ObjectIDFromHex] *)

Definition hex_digit (c : ascii) : option N :=
  let k := N_of_ascii c in
  if (48 <=? k)%N && (k <=? 57)%N then Some (k - 48)%N
  else if (97 <=? k)%N && (k <=? 102)%N then Some (k - 87)%N
  else if (65 <=? k)%N && (k <=? 70)%N then Some (k - 55)%N
  else None.

Fixpoint hex_decode (s : string) (acc : N) : option N :=
  match s with
  | EmptyString => Some acc
  | String c s' =>
      match hex_digit c with
      | Some d => hex_decode s' (16 * acc + d)%N
      | None => None
      end
  end.

(** The driver's parser: exactly 24 hexadecimal characters, either case. *)
Definition ObjectIDFromHex (s : string) : result ObjectID :=
  if (String.length s =? 24)%nat then
    match hex_decode s 0%N with
    | Some oid => Ok oid
    | None => Err ErrInvalidHex
    end
  else Err ErrInvalidHex.

(* ===================================================================== *)
(** ** The world a handler runs in *)

(** Storage calls, as they appear in the handlers. *)
Inductive StorageCall : Type :=
| CallFindOne (coll : string)
| CallFind (coll : string)
| CallInsertOne (coll : string)
| CallUpdateOne (coll : string)
| CallGetMore (coll : string).   (* a cursor fetching its next batch *)

(** [users] and [complaints] are [db.Collection("users")] and
    [db.Collection("complaints")], documents in natural (insertion) order.
    [oids], [rands], [faults], [batches] and [decodes] are what the
    environment answers next: the results of [primitive.NewObjectID()]
    (never the zero identifier, hence [positive]); the values [r.Int31()]
    of [math/rand] returns; for each coming storage call (a cursor's
    fetch of a further batch included) whether the driver fails; for each
    coming fetch of a further batch, how many documents beyond the first
    the server puts in it (with no entry the server sends all that is
    left and closes the cursor; an entry when nothing is left is a server
    that kept the cursor open past the last document); and for each
    coming [cursor.Decode] whether it fails.  [trace] records the storage
    calls issued so far, oldest first. *)
Record World : Type := makeWorld {
  users : list User;
  complaints : list Complaint;
  oids : list positive;
  rands : list Z;
  faults : list bool;
  trace : list StorageCall;
  batches : list nat;
  decodes : list bool
}.

(** A world in which each batch a cursor fetches holds all the documents
    that are left, and every document decodes. *)
Definition mkWorld (us : list User) (cs : list Complaint) (os : list positive)
    (rs : list Z) (fs : list bool) (tr : list StorageCall) : World :=
  makeWorld us cs os rs fs tr [] [].

Definition M (A : Type) : Type := World -> A * World.

Definition ret {A : Type} (a : A) : M A := fun w => (a, w).

Definition bind {A B : Type} (m : M A) (k : A -> M B) : M B :=
  fun w => let (a, w') := m w in k a w'.

Notation "x <- m ;; k" := (bind m (fun x => k))
  (at level 61, m at next level, right associativity).

(** [primitive.NewObjectID()]. *)
Definition NewObjectID : M ObjectID :=
  fun w => (Npos (hd xH (oids w)),
            makeWorld (users w) (complaints w) (tl (oids w)) (rands w) (faults w)
                      (trace w) (batches w) (decodes w)).

(** [r.Int31()]: the next 31-bit value of the source; the tape of values
    is threaded through. *)
Definition Int31 (tape : list Z) : Z * list Z :=
  (hd 0 tape mod 2147483648, tl tape).

(** The loop [for v > max { v = r.Int31() }] of [Int31n]. *)
Fixpoint Int31n_retry (max v : Z) (tape : list Z) : Z * list Z :=
  if v >? max then
    match tape with
    | [] => (0, [])
    | x :: tape' => Int31n_retry max (x mod 2147483648) tape'
    end
  else (v, tape).

(** [r.Int31n(n)] for [0 < n < 2^31]: a power of two masks one value; any
    other [n] rejects the values above the largest multiple of [n] and
    reduces the first accepted one modulo [n]. *)
Definition Int31n (n : Z) (tape : list Z) : Z * list Z :=
  if Z.land n (n - 1) =? 0 then
    (Z.land (fst (Int31 tape)) (n - 1), snd (Int31 tape))
  else
    let max := 2147483648 - 1 - 2147483648 mod n in
    let drawn := Int31n_retry max (fst (Int31 tape)) (snd (Int31 tape)) in
    (fst drawn mod n, snd drawn).

(** [rand.Intn(n)] for [0 < n <= 1<<31 - 1], where it is [Int31n]. *)
Definition rand_Intn (n : Z) : M Z :=
  fun w => (fst (Int31n n (rands w)),
            makeWorld (users w) (complaints w) (oids w) (snd (Int31n n (rands w)))
                      (faults w) (trace w) (batches w) (decodes w)).

(** Every storage call is logged and learns whether the driver fails. *)
Definition storage_call (c : StorageCall) : M bool :=
  fun w => (hd false (faults w),
            makeWorld (users w) (complaints w) (oids w) (rands w) (tl (faults w))
                      (trace w ++ [c]) (batches w) (decodes w)).

Definition get_users : M (list User) := fun w => (users w, w).

Definition get_complaints : M (list Complaint) := fun w => (complaints w, w).

Definition put_users (us : list User) : M unit :=
  fun w => (tt, makeWorld us (complaints w) (oids w) (rands w) (faults w) (trace w)
                          (batches w) (decodes w)).

Definition put_complaints (cs : list Complaint) : M unit :=
  fun w => (tt, makeWorld (users w) cs (oids w) (rands w) (faults w) (trace w)
                          (batches w) (decodes w)).

(* ===================================================================== *)
(** ** The collections *)

(** The first document the predicate holds of is replaced, the others are
    left alone ([UpdateOne]); with no such document nothing changes. *)
Fixpoint update_first {D : Type} (p : D -> bool) (f : D -> D) (l : list D) : list D :=
  match l with
  | [] => []
  | d :: l' => if p d then f d :: l' else d :: update_first p f l'
  end.

(** The untyped filters of the source, one constructor per shape in use. *)
Inductive UserFilter : Type :=
| USecretCode (s : string)      (* bson.M{"secretcode": s} *)
| UId (id : ObjectID).          (* bson.M{"_id": id} *)

Inductive ComplaintFilter : Type :=
| CAll                          (* bson.M{} *)
| CId (id : ObjectID)           (* bson.M{"_id": id} *)
| CUserId (id : ObjectID).      (* bson.M{"userid": id} *)

Definition match_user (f : UserFilter) (u : User) : bool :=
  match f with
  | USecretCode s => String.eqb (uSecretCode u) s
  | UId id => N.eqb (uID u) id
  end.

Definition match_complaint (f : ComplaintFilter) (c : Complaint) : bool :=
  match f with
  | CAll => true
  | CId id => N.eqb (cID c) id
  | CUserId id => N.eqb (cUserID c) id
  end.

(** The update documents of the source. *)
Inductive UserUpdate : Type :=
| SetComplaints (l : list ObjectID).   (* bson.M{"$set": bson.M{"complaints": l}} *)

Inductive ComplaintUpdate : Type :=
| SetResolved (b : bool).              (* bson.M{"$set": bson.M{"resolved": b}} *)

Definition apply_user_update (u : UserUpdate) : User -> User :=
  match u with SetComplaints l => set_uComplaints l end.

Definition apply_complaint_update (u : ComplaintUpdate) : Complaint -> Complaint :=
  match u with SetResolved b => set_cResolved b end.

(** [db.Collection("users").FindOne(ctx, filter).Decode(&user)]. *)
Definition users_FindOne (f : UserFilter) : M (result User) :=
  failed <- storage_call (CallFindOne "users") ;;
  if failed : bool then ret (Err ErrDriver)
  else
    us <- get_users ;;
    match find (match_user f) us with
    | Some u => ret (Ok u)
    | None => ret (Err ErrNoDocuments)
    end.

(** [db.Collection("users").InsertOne(ctx, user)]; [_id] is unique. *)
Definition users_InsertOne (u : User) : M (result ObjectID) :=
  failed <- storage_call (CallInsertOne "users") ;;
  if failed : bool then ret (Err ErrDriver)
  else
    us <- get_users ;;
    if existsb (match_user (UId (uID u))) us then ret (Err ErrDuplicateKey)
    else
      _ <- put_users (us ++ [u]) ;;
      ret (Ok (uID u)).

(** [db.Collection("users").UpdateOne(ctx, filter, update)]; matching no
    document is not an error. *)
Definition users_UpdateOne (f : UserFilter) (upd : UserUpdate) : M (result unit) :=
  failed <- storage_call (CallUpdateOne "users") ;;
  if failed : bool then ret (Err ErrDriver)
  else
    us <- get_users ;;
    _ <- put_users (update_first (match_user f) (apply_user_update upd) us) ;;
    ret (Ok tt).

(** [db.Collection("complaints").FindOne(ctx, filter).Decode(&complaint)]. *)
Definition complaints_FindOne (f : ComplaintFilter) : M (result Complaint) :=
  failed <- storage_call (CallFindOne "complaints") ;;
  if failed : bool then ret (Err ErrDriver)
  else
    cs <- get_complaints ;;
    match find (match_complaint f) cs with
    | Some c => ret (Ok c)
    | None => ret (Err ErrNoDocuments)
    end.

(** A cursor: the matching documents not read yet, in order, and how many
    more documents the batch the driver has fetched has room for.  A
    batch that was not filled is the last one: the server has closed the
    cursor. *)
Record Cursor : Type := mkCursor {
  pending : list Complaint;
  buffered : nat
}.

(** The first batch of a [find] holds at most 101 documents. *)
Definition firstBatch : nat := 101.

(** [db.Collection("complaints").Find(ctx, filter)]: the call itself can
    fail; when it does not, it hands over a cursor with the first batch. *)
Definition complaints_Find (f : ComplaintFilter) : M (result Cursor) :=
  failed <- storage_call (CallFind "complaints") ;;
  if failed : bool then ret (Err ErrDriver)
  else
    cs <- get_complaints ;;
    ret (Ok (mkCursor (filter (match_complaint f) cs) firstBatch)).

(** The number of documents in the batch the server answers with, of the
    [left] it still has: one more than the environment says, all of them
    when it says nothing. *)
Definition next_batch (left : nat) : M nat :=
  fun w => (match batches w with
            | [] => left
            | more :: _ => S more
            end,
            makeWorld (users w) (complaints w) (oids w) (rands w) (faults w)
                      (trace w) (tl (batches w)) (decodes w)).

(** Whether the server still holds the cursor open when the fetched
    batch was filled and is used up: it does while documents are left;
    past the last document it does when the environment has an answer
    for one more fetch (the server had not yet seen the end of the
    data), and that fetch brings nothing. *)
Definition cursor_live (c : Cursor) : M bool :=
  fun w => (match pending c with
            | [] => match batches w with [] => false | _ :: _ => true end
            | _ :: _ => true
            end, w).

(** [cursor.Next(ctx)]: the next document is in the fetched batch, or a
    further batch is fetched first.  [Some] is [true], with the room left
    in the batch after this document; [None] is [false]: the cursor is
    exhausted, or the fetch failed and the cursor keeps the error. *)
Definition cursor_Next (c : Cursor) : M (option nat) :=
  match buffered c with
  | S k => ret (match pending c with [] => None | _ :: _ => Some k end)
  | O =>
      live <- cursor_live c ;;
      if live : bool then
        failed <- storage_call (CallGetMore "complaints") ;;
        if failed : bool then ret None
        else
          size <- next_batch (List.length (pending c)) ;;
          ret (match pending c with [] => None | _ :: _ => Some (size - 1)%nat end)
      else ret None
  end.

(** [cursor.Decode(&complaint)] of the current document. *)
Definition cursor_Decode (doc : Complaint) : M (result Complaint) :=
  fun w => (if hd false (decodes w) then Err ErrDriver else Ok doc,
            makeWorld (users w) (complaints w) (oids w) (rands w) (faults w)
                      (trace w) (batches w) (tl (decodes w))).

(** [db.Collection("complaints").InsertOne(ctx, complaint)]. *)
Definition complaints_InsertOne (c : Complaint) : M (result ObjectID) :=
  failed <- storage_call (CallInsertOne "complaints") ;;
  if failed : bool then ret (Err ErrDriver)
  else
    cs <- get_complaints ;;
    if existsb (match_complaint (CId (cID c))) cs then ret (Err ErrDuplicateKey)
    else
      _ <- put_complaints (cs ++ [c]) ;;
      ret (Ok (cID c)).

(** [db.Collection("complaints").UpdateOne(ctx, filter, update)]. *)
Definition complaints_UpdateOne (f : ComplaintFilter) (upd : ComplaintUpdate)
  : M (result unit) :=
  failed <- storage_call (CallUpdateOne "complaints") ;;
  if failed : bool then ret (Err ErrDriver)
  else
    cs <- get_complaints ;;
    _ <- put_complaints (update_first (match_complaint f) (apply_complaint_update upd) cs) ;;
    ret (Ok tt).

(** The loop
    [for cursor.Next(ctx) { if err := cursor.Decode(&complaint); err != nil
    { ...500; return }; acc = append(acc, complaint) }].
    It is left with [acc] when [Next] is false, be it because the cursor
    is exhausted or because fetching a batch failed: the source does not
    read [cursor.Err()] after the loop.  A [Decode] error leaves it with
    that error. *)
Fixpoint drain (pending : list Complaint) (buffered : nat) (acc : list Complaint)
  : M (result (list Complaint)) :=
  next <- cursor_Next (mkCursor pending buffered) ;;
  match next, pending with
  | Some buffered', doc :: pending' =>
      decoded <- cursor_Decode doc ;;
      match decoded with
      | Err err => ret (Err err)
      | Ok complaint => drain pending' buffered' (acc ++ [complaint])
      end
  | _, _ => ret (Ok acc)
  end.

(* ===================================================================== *)
(** ** The handlers *)

Definition http_Error (msg : string) (code : Z) : M Response :=
  ret (HttpError msg code).

Definition json_Encode (p : Payload) : M Response := ret (Json p).

Definition generateSecretCode : M string :=
  n <- rand_Intn 1000000 ;;
  ret (Sprintf_06d n).

Definition loginHandler (secretCode : string) : M Response :=
  r <- users_FindOne (USecretCode secretCode) ;;
  match r with
  | Err _ => http_Error "User not found" StatusNotFound
  | Ok user => json_Encode (JUser user)
  end.

Definition registerHandler (body : Body User) : M Response :=
  match body with
  | Malformed msg => http_Error msg StatusBadRequest
  | Decoded user =>
      id <- NewObjectID ;;
      let user := set_uID id user in
      code <- generateSecretCode ;;
      let user := set_uSecretCode code user in
      let user := set_uComplaints [] user in
      r <- users_InsertOne user ;;
      match r with
      | Err err => http_Error (Error err) StatusInternalServerError
      | Ok _ => json_Encode (JUser user)
      end
  end.

Definition submitComplaintHandler (body : Body Complaint) : M Response :=
  match body with
  | Malformed msg => http_Error msg StatusBadRequest
  | Decoded complaint =>
      id <- NewObjectID ;;
      let complaint := set_cID id complaint in
      let complaint := set_cResolved false complaint in
      r <- complaints_InsertOne complaint ;;
      match r with
      | Err err => http_Error (Error err) StatusInternalServerError
      | Ok _ =>
          r <- users_FindOne (UId (cUserID complaint)) ;;
          _ <- match r with
               | Ok user =>
                   let user :=
                     set_uComplaints (uComplaints user ++ [cID complaint]) user in
                   users_UpdateOne (UId (uID user)) (SetComplaints (uComplaints user))
               | Err _ => ret (Ok tt)
               end ;;
          json_Encode (JComplaint complaint)
      end
  end.

Definition getAllComplaintsForUserHandler (secretCode : string) : M Response :=
  r <- users_FindOne (USecretCode secretCode) ;;
  match r with
  | Err _ => http_Error "User not found" StatusNotFound
  | Ok user =>
      r <- complaints_Find (CUserId (uID user)) ;;
      match r with
      | Err err => http_Error (Error err) StatusInternalServerError
      | Ok cursor =>
          r <- drain (pending cursor) (buffered cursor) [] ;;
          match r with
          | Err err => http_Error (Error err) StatusInternalServerError
          | Ok userComplaints => json_Encode (JComplaints userComplaints)
          end
      end
  end.

Definition getAllComplaintsForAdminHandler : M Response :=
  r <- complaints_Find CAll ;;
  match r with
  | Err err => http_Error (Error err) StatusInternalServerError
  | Ok cursor =>
      r <- drain (pending cursor) (buffered cursor) [] ;;
      match r with
      | Err err => http_Error (Error err) StatusInternalServerError
      | Ok allComplaints => json_Encode (JComplaints allComplaints)
      end
  end.

Definition viewComplaintHandler (complaintID : string) : M Response :=
  match ObjectIDFromHex complaintID with
  | Err _ => http_Error "Invalid complaint ID" StatusBadRequest
  | Ok oid =>
      r <- complaints_FindOne (CId oid) ;;
      match r with
      | Err _ => http_Error "Complaint not found" StatusNotFound
      | Ok complaint => json_Encode (JComplaint complaint)
      end
  end.

Definition resolveComplaintHandler (complaintID : string) : M Response :=
  match ObjectIDFromHex complaintID with
  | Err _ => http_Error "Invalid complaint ID" StatusBadRequest
  | Ok oid =>
      r <- complaints_FindOne (CId oid) ;;
      match r with
      | Err _ => http_Error "Complaint not found" StatusNotFound
      | Ok complaint =>
          let complaint := set_cResolved true complaint in
          r <- complaints_UpdateOne (CId oid) (SetResolved (cResolved complaint)) ;;
          match r with
          | Err err => http_Error (Error err) StatusInternalServerError
          | Ok _ => json_Encode (JComplaint complaint)
          end
      end
  end.

(** The route table of [main], one constructor per path, carrying what the
    handler reads from the request. *)
Inductive Request : Type :=
| GET_login (secretCode : string)
| POST_register (body : Body User)
| POST_submitComplaint (body : Body Complaint)
| GET_getAllComplaintsForUser (secretCode : string)
| GET_getAllComplaintsForAdmin
| GET_viewComplaint (complaintId : string)
| POST_resolveComplaint (complaintId : string).

Definition serve (r : Request) : M Response :=
  match r with
  | GET_login s => loginHandler s
  | POST_register b => registerHandler b
  | POST_submitComplaint b => submitComplaintHandler b
  | GET_getAllComplaintsForUser s => getAllComplaintsForUserHandler s
  | GET_getAllComplaintsForAdmin => getAllComplaintsForAdminHandler
  | GET_viewComplaint s => viewComplaintHandler s
  | POST_resolveComplaint s => resolveComplaintHandler s
  end.

(** Requests served one after the other, each handler running to its end
    before the next starts.  [net/http] may run handlers concurrently;
    runs in which the storage calls of two handlers interleave are not
    described by this function. *)
Fixpoint serve_all (rs : list Request) : M (list Response) :=
  match rs with
  | [] => ret []
  | r :: rs' =>
      resp <- serve r ;;
      resps <- serve_all rs' ;;
      ret (resp :: resps)
  end.

(* ===================================================================== *)
(** ** Vocabulary of the statements *)

(** What the environment answers next in a world. *)
Definition next_oid (w : World) : ObjectID := Npos (hd xH (oids w)).

Definition next_draw (w : World) : Z := fst (Int31n 1000000 (rands w)).

(** The number of values of [r.Int31()] the next secret code uses up. *)
Definition draws_used (w : World) : nat :=
  List.length (rands w) - List.length (snd (Int31n 1000000 (rands w))).

Definition next_code (w : World) : string := Sprintf_06d (next_draw w).

(** Whether the [k]-th storage call from now on fails in the driver. *)
Definition fault_at (k : nat) (w : World) : bool := nth k (faults w) false.

(** The response to a request and the world it leaves behind. *)
Definition response {A : Type} (m : M A) (w : World) : A := fst (m w).

Definition after {A : Type} (m : M A) (w : World) : World := snd (m w).

(** The storage calls a computation issues from a world. *)
Definition calls {A : Type} (m : M A) (w : World) : list StorageCall :=
  skipn (List.length (trace w)) (trace (after m w)).

(** The records the handlers build from a decoded body. *)
Definition created_user (w : World) (body : User) : User :=
  mkUser (next_oid w) (next_code w) (uName body) (uEmail body) [].

Definition created_complaint (w : World) (body : Complaint) : Complaint :=
  mkComplaint (next_oid w) (cTitle body) (cSummary body) (cRating body) false
              (cUserID body).

(** How a stored complaint may differ after a request: not at all, or by
    its [resolved] flag having been set. *)
Definition complaint_step (c c' : Complaint) : Prop :=
  c' = c \/ c' = set_cResolved true c.

(** How the complaint collection may differ: the documents already there
    stay in place, each changed at most by [complaint_step], and new ones
    come after them. *)
Definition evolves (cs cs' : list Complaint) : Prop :=
  exists kept added, cs' = kept ++ added /\ Forall2 complaint_step cs kept.

(** The world a computation leaves: the collections as given, [noid]
    identifiers, [nrand] draws and [nfault] driver answers consumed, and
    the storage calls [cl] issued. *)
Definition world_after (w : World) (us : list User) (cs : list Complaint)
    (noid nrand nfault : nat) (cl : list StorageCall) : World :=
  makeWorld us cs (skipn noid (oids w)) (skipn nrand (rands w))
            (skipn nfault (faults w)) (trace w ++ cl) (batches w) (decodes w).

(** The part the two listings share: [Find], the cursor loop, the answer. *)
Definition listing (f : ComplaintFilter) : M Response :=
  r <- complaints_Find f ;;
  match r with
  | Err err => http_Error (Error err) StatusInternalServerError
  | Ok cursor =>
      r <- drain (pending cursor) (buffered cursor) [] ;;
      match r with
      | Err err => http_Error (Error err) StatusInternalServerError
      | Ok found => json_Encode (JComplaints found)
      end
  end.

(** Whether the [k]-th [cursor.Decode] from now on fails. *)
Definition decode_fails_at (k : nat) (w : World) : bool := nth k (decodes w) false.

(** No call into the driver fails from this world on: no storage call and
    no [cursor.Decode]. *)
Definition no_failure (w : World) : Prop :=
  (forall k, fault_at k w = false) /\ (forall k, decode_fails_at k w = false).

(** A world with the answers to its first [n] decodes used up. *)
Definition skip_decodes (n : nat) (w : World) : World :=
  makeWorld (users w) (complaints w) (oids w) (rands w) (faults w)
            (trace w) (batches w) (skipn n (decodes w)).

Arguments Sprintf_06d : simpl never.
Arguments Int31n : simpl never.
Arguments world_after : simpl never.

(** *** Sample worlds *)

Definition sample_user : User :=
  mkUser 5%N "234567" "A" "a@x.com" [].

Definition sample_complaint : Complaint :=
  mkComplaint 7%N "T" "s" 3 false 5%N.

Definition sample_id : string := "000000000000000000000007".

(** Nothing stored yet. *)
Definition world_fresh : World :=
  mkWorld [] [] [5%positive; 7%positive] [1234567] [] [].

(** One user, no complaint. *)
Definition world_user : World :=
  mkWorld [sample_user] [] [7%positive] [] [] [].

(** One user and one complaint of theirs. *)
Definition world_complaint : World :=
  mkWorld [set_uComplaints [7%N] sample_user] [sample_complaint] [] [] [] [].

(** One user and their complaint, already resolved; a fresh identifier
    is available for a further submission. *)
Definition world_resolved : World :=
  mkWorld [set_uComplaints [7%N] sample_user]
          [set_cResolved true sample_complaint] [8%positive] [] [] [].

(** No user, and the driver fails on the second storage call. *)
Definition world_faulty : World :=
  mkWorld [] [] [7%positive] [] [false; true] [].

(** Bodies in which the client also supplied the server-managed fields. *)
Definition forged_user : User :=
  mkUser 99%N "hacked" "A" "a@x.com" [3%N].

Definition forged_complaint : Complaint :=
  mkComplaint 99%N "T" "s" 3 true 5%N.

(** A run of requests: a second submission by the same user, a resolve of
    the first complaint again, a listing and a view. *)
Definition sample_requests : list Request :=
  [POST_submitComplaint (Decoded forged_complaint);
   POST_resolveComplaint sample_id;
   GET_getAllComplaintsForAdmin;
   GET_viewComplaint sample_id].

(** The scenario of the specification: register, submit a complaint for
    the returned identifier, list by the returned code, resolve, view. *)
Definition scenario_requests : list Request :=
  [POST_register (Decoded (mkUser 0%N "" "A" "a@x.com" []));
   POST_submitComplaint (Decoded (mkComplaint 0%N "T" "s" 3 false 5%N));
   GET_getAllComplaintsForUser "234567";
   POST_resolveComplaint sample_id;
   GET_viewComplaint sample_id].

(* ===================================================================== *)
(** ** Vocabulary of the store-wide properties *)

(** The requests routed to handlers that only read. *)
Definition read_only (r : Request) : bool :=
  match r with
  | GET_login _ | GET_getAllComplaintsForUser _
  | GET_getAllComplaintsForAdmin | GET_viewComplaint _ => true
  | POST_register _ | POST_submitComplaint _ | POST_resolveComplaint _ => false
  end.

Definition is_read (c : StorageCall) : bool :=
  match c with
  | CallFindOne _ | CallFind _ | CallGetMore _ => true
  | CallInsertOne _ | CallUpdateOne _ => false
  end.

(** What one request can do to the two collections: nothing; the insert
    of [registerHandler]; the insert of [submitComplaintHandler], alone or
    followed by the update of the owner's list; the update of
    [resolveComplaintHandler]. *)
Inductive transition (w w' : World) : Prop :=
| tr_none :
    users w' = users w ->
    complaints w' = complaints w ->
    transition w w'
| tr_register (body : User) :
    ~ In (next_oid w) (map uID (users w)) ->
    users w' = users w ++ [created_user w body] ->
    complaints w' = complaints w ->
    transition w w'
| tr_submit (body : Complaint) :
    ~ In (next_oid w) (map cID (complaints w)) ->
    users w' = users w ->
    complaints w' = complaints w ++ [created_complaint w body] ->
    transition w w'
| tr_submit_linked (body : Complaint) (user : User) :
    ~ In (next_oid w) (map cID (complaints w)) ->
    find (match_user (UId (cUserID body))) (users w) = Some user ->
    users w' = update_first (match_user (UId (uID user)))
                 (set_uComplaints (uComplaints user ++ [next_oid w])) (users w) ->
    complaints w' = complaints w ++ [created_complaint w body] ->
    transition w w'
| tr_resolve (oid : ObjectID) (c : Complaint) :
    find (match_complaint (CId oid)) (complaints w) = Some c ->
    users w' = users w ->
    complaints w' = update_first (match_complaint (CId oid)) (set_cResolved true)
                      (complaints w) ->
    transition w w'.

(** How a stored user may differ after a request: only by identifiers
    added at the end of its complaint list. *)
Definition user_step (u u' : User) : Prop :=
  exists more, u' = set_uComplaints (uComplaints u ++ more) u.

(** Identifiers are unique within each collection. *)
Definition ids_unique (w : World) : Prop :=
  NoDup (map uID (users w)) /\ NoDup (map cID (complaints w)).

(** Every stored secret code is six decimal digits. *)
Definition codes_well_formed (w : World) : Prop :=
  Forall (fun u => six_digits (uSecretCode u) = true) (users w).

(** Every identifier in a user's complaint list is that of a stored
    complaint owned by the user. *)
Definition refs_sound (w : World) : Prop :=
  forall u k, In u (users w) -> In k (uComplaints u) ->
    exists c, In c (complaints w) /\ cID c = k /\ cUserID c = uID u.

(** [ObjectID.Hex()], the form in which [json.Encode] writes an
    identifier: 24 lower-case hexadecimal digits, most significant first. *)
Definition hex_char (d : N) : ascii :=
  if (d <? 10)%N then ascii_of_N (48 + d) else ascii_of_N (87 + d).

Fixpoint hex_digits (k : nat) (n : N) (acc : string) : string :=
  match k with
  | O => acc
  | S k' => hex_digits k' (n / 16)%N (String (hex_char (n mod 16)%N) acc)
  end.

Definition ObjectID_Hex (oid : ObjectID) : string := hex_digits 24 oid EmptyString.

(** How the user collection may differ: the documents already there stay
    in place, each changed at most by [user_step], and new ones come after
    them. *)
Definition users_evolve (us us' : list User) : Prop :=
  exists kept added, us' = kept ++ added /\ Forall2 user_step us kept.

(** One user and one complaint; the driver fails on the second storage
    call. *)
Definition world_update_fails : World :=
  mkWorld [set_uComplaints [7%N] sample_user] [sample_complaint] [8%positive] []
          [false; true] [].

(** 102 complaints, one more than a first batch holds; the driver fails
    on the second storage call, which in a listing is the fetch of the
    second batch. *)
Definition world_two_batches : World :=
  mkWorld []
          (map (fun i => mkComplaint (N.of_nat i) "T" "s" 3 false 5%N) (seq 1 102))
          [] [] [false; true] [].

(** One user whose code the next registration will draw again. *)
Definition world_collision : World :=
  mkWorld [sample_user] [] [6%positive] [234567] [] [].

(** One user, one complaint of theirs the user's list does not mention. *)
Definition world_orphan : World :=
  mkWorld [sample_user] [sample_complaint] [8%positive] [] [] [].

(** *** Proof steps shared by the handler lemmas *)

Ltac unfold_handlers :=
  unfold registerHandler, submitComplaintHandler, loginHandler,
    getAllComplaintsForUserHandler, getAllComplaintsForAdminHandler,
    viewComplaintHandler, resolveComplaintHandler, generateSecretCode,
    users_FindOne, users_InsertOne, users_UpdateOne,
    complaints_FindOne, complaints_Find, complaints_InsertOne,
    complaints_UpdateOne, NewObjectID, rand_Intn, storage_call,
    cursor_Next, cursor_live, cursor_Decode, next_batch,
    get_users, get_complaints, put_users, put_complaints,
    http_Error, json_Encode, bind, ret.

Ltac world_eq :=
  unfold world_after, created_user, created_complaint, next_oid, next_code,
    next_draw, fault_at;
  cbn [users complaints oids rands faults trace batches decodes hd tl nth skipn];
  rewrite <- ?app_assoc; cbn [app]; rewrite ?app_nil_r; try reflexivity.

(* ===================================================================== *)
(** * Properties *)

(** ** Formatting *)

Lemma is_digit_digit_char (d : Z) :
  0 <= d < 10 -> is_digit (digit_char d) = true.
Proof.
  intros Hd.
  assert (Hcase : d = 0 \/ d = 1 \/ d = 2 \/ d = 3 \/ d = 4 \/ d = 5 \/ d = 6
                  \/ d = 7 \/ d = 8 \/ d = 9) by lia.
  repeat (destruct Hcase as [-> | Hcase]; [reflexivity |]).
  subst d; reflexivity.
Qed.

Lemma value_digit_char (d : Z) :
  0 <= d < 10 -> Z.of_nat (nat_of_ascii (digit_char d)) - 48 = d.
Proof.
  intros Hd. unfold digit_char.
  rewrite nat_ascii_embedding by lia. lia.
Qed.

Lemma all_digits_decimal_fuel (fuel : nat) :
  forall (n : Z) (acc : string),
    0 <= n -> all_digits acc = true ->
    all_digits (decimal_fuel fuel n acc) = true.
Proof.
  induction fuel as [| fuel IH]; intros n acc Hn Hacc;
    cbn [decimal_fuel]; [assumption |].
  assert (Hd : all_digits (String (digit_char (n mod 10)) acc) = true).
  { cbn [all_digits]. rewrite is_digit_digit_char, Hacc; [reflexivity |].
    apply Z.mod_pos_bound; lia. }
  destruct (n <? 10); [exact Hd |].
  apply IH; [apply Z.div_pos; lia | exact Hd].
Qed.

Lemma length_decimal_fuel (fuel : nat) :
  forall (k : nat) (n : Z) (acc : string),
    0 <= n < 10 ^ Z.of_nat (S k) ->
    (String.length (decimal_fuel fuel n acc) <= S k + String.length acc)%nat.
Proof.
  induction fuel as [| fuel IH]; intros k n acc Hn;
    cbn [decimal_fuel]; [lia |].
  destruct (Z.ltb_spec n 10) as [Hlt | Hge]; [cbn [String.length]; lia |].
  destruct k as [| k].
  - change (10 ^ Z.of_nat 1) with 10 in Hn. lia.
  - specialize (IH k (n / 10) (String (digit_char (n mod 10)) acc)).
    cbn [String.length] in IH.
    assert (Hdiv : 0 <= n / 10 < 10 ^ Z.of_nat (S k)).
    { split; [apply Z.div_pos; lia |].
      apply Z.div_lt_upper_bound; [lia |].
      replace (Z.of_nat (S (S k))) with (Z.succ (Z.of_nat (S k))) in Hn by lia.
      rewrite Z.pow_succ_r in Hn by lia. lia. }
    specialize (IH Hdiv). lia.
Qed.

Lemma value_decimal_fuel (fuel : nat) :
  forall (n : Z) (acc : string),
    0 <= n < 2 ^ Z.of_nat fuel ->
    decimal_value (decimal_fuel fuel n acc) 0 = decimal_value acc n.
Proof.
  induction fuel as [| fuel IH]; intros n acc Hn.
  - change (2 ^ Z.of_nat 0) with 1 in Hn.
    assert (n = 0) by lia. subst n. reflexivity.
  - cbn [decimal_fuel].
    assert (Hmod : 0 <= n mod 10 < 10) by (apply Z.mod_pos_bound; lia).
    destruct (Z.ltb_spec n 10) as [Hlt | Hge].
    + cbn [decimal_value]. rewrite value_digit_char by exact Hmod.
      rewrite Z.mod_small by lia. f_equal.
    + rewrite IH.
      * cbn [decimal_value]. rewrite value_digit_char by exact Hmod.
        f_equal. pose proof (Z.div_mod n 10). lia.
      * split; [apply Z.div_pos; lia |].
        apply Z.div_lt_upper_bound; [lia |].
        replace (Z.of_nat (S fuel)) with (Z.succ (Z.of_nat fuel)) in Hn by lia.
        rewrite Z.pow_succ_r in Hn by lia. lia.
Qed.

Lemma value_decimal (n : Z) :
  0 <= n -> decimal_value (decimal n) 0 = n.
Proof.
  intros Hn. unfold decimal. rewrite value_decimal_fuel; [reflexivity |].
  split; [exact Hn |].
  replace (Z.of_nat (S (Z.to_nat (Z.log2 n)))) with (Z.succ (Z.log2 n))
    by (pose proof (Z.log2_nonneg n); lia).
  destruct (Z.eq_dec n 0) as [-> | Hnz]; [reflexivity |].
  apply Z.log2_spec. lia.
Qed.

Lemma length_zeros_append (k : nat) (s : string) :
  String.length (zeros k ++ s)%string = (k + String.length s)%nat.
Proof.
  induction k as [| k IH]; cbn [zeros String.append String.length Nat.add];
    [reflexivity | now rewrite IH].
Qed.

Lemma all_digits_zeros_append (k : nat) (s : string) :
  all_digits (zeros k ++ s)%string = all_digits s.
Proof. induction k as [| k IH]; simpl; [reflexivity | exact IH]. Qed.

Lemma value_zeros_append (k : nat) (s : string) :
  decimal_value (zeros k ++ s)%string 0 = decimal_value s 0.
Proof. induction k as [| k IH]; simpl; [reflexivity | exact IH]. Qed.

(** A draw below a million prints as six digits that spell it. *)
Lemma Sprintf_06d_six_digits (n : Z) :
  0 <= n < 1000000 ->
  six_digits (Sprintf_06d n) = true /\ decimal_value (Sprintf_06d n) 0 = n.
Proof.
  intros Hn. unfold Sprintf_06d.
  destruct (Z.ltb_spec n 0) as [Hneg | _]; [lia |].
  unfold pad_zeros, six_digits.
  rewrite length_zeros_append, all_digits_zeros_append, value_zeros_append.
  assert (Hlen : (String.length (decimal n) <= 6)%nat).
  { unfold decimal.
    pose proof (length_decimal_fuel (S (Z.to_nat (Z.log2 n))) 5 n EmptyString) as H.
    cbn [String.length] in H. rewrite Nat.add_0_r in H. apply H.
    change (10 ^ Z.of_nat 6) with 1000000. exact Hn. }
  repeat split.
  - apply andb_true_intro; split.
    + apply Nat.eqb_eq. lia.
    + unfold decimal. apply all_digits_decimal_fuel; [lia | reflexivity].
  - apply value_decimal. lia.
Qed.

Lemma next_draw_range (w : World) : 0 <= next_draw w < 1000000.
Proof.
  unfold next_draw, Int31n.
  change (Z.land 1000000 (1000000 - 1) =? 0) with false.
  cbv zeta. cbn [fst]. apply Z.mod_pos_bound. lia.
Qed.

Lemma next_code_six_digits (w : World) :
  six_digits (next_code w) = true /\ decimal_value (next_code w) 0 = next_draw w.
Proof. apply Sprintf_06d_six_digits, next_draw_range. Qed.

(* ===================================================================== *)
(** ** Lists and collections *)

Lemma skipn_app_length {A : Type} (l r : list A) :
  skipn (List.length l) (l ++ r) = r.
Proof. induction l as [| a l IH]; [reflexivity | exact IH]. Qed.

Lemma nth_skipn_add {A : Type} (j : nat) :
  forall (k : nat) (l : list A) (d : A), nth k (skipn j l) d = nth (j + k) l d.
Proof.
  induction j as [| j IH]; intros k l d; [reflexivity |].
  destruct l as [| a l]; [now destruct k | apply IH].
Qed.

Lemma Int31n_retry_suffix (max : Z) (tape : list Z) :
  forall v, exists used, tape = used ++ snd (Int31n_retry max v tape).
Proof.
  induction tape as [| x tape IH]; intros v; cbn [Int31n_retry].
  - exists []. now destruct (v >? max).
  - destruct (v >? max).
    + destruct (IH (x mod 2147483648)) as [used Hused].
      exists (x :: used). cbn [app]. now rewrite <- Hused.
    + now exists [].
Qed.

Lemma Int31n_suffix (n : Z) (tape : list Z) :
  exists used, tape = used ++ snd (Int31n n tape).
Proof.
  assert (Htl : exists used, tape = used ++ tl tape)
    by (destruct tape as [| x tape]; [now exists [] | now exists [x]]).
  unfold Int31n. destruct (Z.land n (n - 1) =? 0); cbv zeta; cbn [fst snd Int31].
  - exact Htl.
  - destruct Htl as [used1 H1].
    destruct (Int31n_retry_suffix (2147483648 - 1 - 2147483648 mod n) (tl tape)
                (hd 0 tape mod 2147483648)) as [used2 H2].
    exists (used1 ++ used2). rewrite <- app_assoc, <- H2. exact H1.
Qed.

(** The draws a secret code uses up are the first ones of the tape. *)
Lemma rands_after_code (w : World) :
  skipn (draws_used w) (rands w) = snd (Int31n 1000000 (rands w)).
Proof.
  unfold draws_used. destruct (Int31n_suffix 1000000 (rands w)) as [used Hused].
  rewrite Hused at 1 3. rewrite length_app, Nat.add_sub.
  apply skipn_app_length.
Qed.

Lemma existsb_user_id (id : ObjectID) (us : list User) :
  existsb (match_user (UId id)) us = false <-> ~ In id (map uID us).
Proof.
  induction us as [| u us IH]; cbn [existsb map In match_user].
  - tauto.
  - rewrite orb_false_iff, IH, N.eqb_neq. tauto.
Qed.

Lemma existsb_complaint_id (id : ObjectID) (cs : list Complaint) :
  existsb (match_complaint (CId id)) cs = false <-> ~ In id (map cID cs).
Proof.
  induction cs as [| c cs IH]; cbn [existsb map In match_complaint].
  - tauto.
  - rewrite orb_false_iff, IH, N.eqb_neq. tauto.
Qed.

Lemma find_none_iff {A : Type} (p : A -> bool) (l : list A) :
  find p l = None <-> forall a, In a l -> p a = false.
Proof.
  split; [apply find_none |].
  induction l as [| a l IH]; intros H; [reflexivity |].
  cbn [find]. rewrite (H a (or_introl eq_refl)).
  apply IH. intros b Hb. apply H. now right.
Qed.

Lemma find_first {A : Type} (p : A -> bool) (pre post : list A) (a : A) :
  (forall b, In b pre -> p b = false) -> p a = true ->
  find p (pre ++ a :: post) = Some a.
Proof.
  intros Hpre Ha. induction pre as [| b pre IH]; cbn [app find].
  - now rewrite Ha.
  - rewrite (Hpre b (or_introl eq_refl)). apply IH.
    intros b' Hb'. apply Hpre. now right.
Qed.

(** After [UpdateOne], [FindOne] with a filter the update does not affect
    returns the updated document, when the two filters select the same
    first document. *)
Lemma find_update_first {A : Type} (p q : A -> bool) (f : A -> A) (l : list A) (a : A) :
  find p l = Some a ->
  (forall b, q (f b) = q b) ->
  (forall b, In b l -> q b = p b) ->
  find q (update_first p f l) = Some (f a).
Proof.
  intros Hfind Hq Hpq. induction l as [| b l IH]; [discriminate |].
  cbn [find update_first] in *.
  pose proof (Hpq b (or_introl eq_refl)) as Hb.
  destruct (p b) eqn:Hpb.
  - injection Hfind as ->. cbn [find]. now rewrite Hq, Hb.
  - cbn [find]. rewrite Hb. apply IH; [exact Hfind |].
    intros b' Hb'. apply Hpq. now right.
Qed.

(* ===================================================================== *)
(** ** What each handler computes *)

Lemma fault_at_world_after (w : World) us cs (a b j k : nat) cl :
  fault_at k (world_after w us cs a b j cl) = fault_at (j + k) w.
Proof. unfold fault_at, world_after. cbn [faults]. apply nth_skipn_add. Qed.

Lemma calls_world_after {A : Type} (m : M A) (w : World) (x : A) us cs (a b j : nat) cl :
  m w = (x, world_after w us cs a b j cl) -> calls m w = cl.
Proof.
  intros H. unfold calls, after. rewrite H. unfold world_after.
  cbn [snd trace]. apply skipn_app_length.
Qed.

Lemma calls_unchanged {A : Type} (m : M A) (w : World) (x : A) :
  m w = (x, w) -> calls m w = [].
Proof.
  intros H. unfold calls, after. rewrite H. cbn [snd]. apply skipn_all.
Qed.

Lemma registerHandler_run (w : World) (body : User) :
  registerHandler (Decoded body) w =
  if fault_at 0 w then
    (HttpError (Error ErrDriver) StatusInternalServerError,
     world_after w (users w) (complaints w) 1 (draws_used w) 1
                 [CallInsertOne "users"])
  else if existsb (match_user (UId (next_oid w))) (users w) then
    (HttpError (Error ErrDuplicateKey) StatusInternalServerError,
     world_after w (users w) (complaints w) 1 (draws_used w) 1
                 [CallInsertOne "users"])
  else
    (Json (JUser (created_user w body)),
     world_after w (users w ++ [created_user w body]) (complaints w) 1
                 (draws_used w) 1 [CallInsertOne "users"]).
Proof.
  unfold world_after. rewrite rands_after_code.
  destruct w as [us cs os rs fs tr bs ds]. unfold_handlers.
  cbn [users complaints oids rands faults trace batches decodes fst snd set_uID
       set_uSecretCode set_uComplaints uID uSecretCode uName uEmail uComplaints].
  destruct fs as [| [] fs]; world_eq;
    destruct (existsb _ us); world_eq.
Qed.

Lemma submitComplaintHandler_run (w : World) (body : Complaint) :
  let created := created_complaint w body in
  let cs' := complaints w ++ [created] in
  submitComplaintHandler (Decoded body) w =
  if fault_at 0 w then
    (HttpError (Error ErrDriver) StatusInternalServerError,
     world_after w (users w) (complaints w) 1 0 1 [CallInsertOne "complaints"])
  else if existsb (match_complaint (CId (next_oid w))) (complaints w) then
    (HttpError (Error ErrDuplicateKey) StatusInternalServerError,
     world_after w (users w) (complaints w) 1 0 1 [CallInsertOne "complaints"])
  else if fault_at 1 w then
    (Json (JComplaint created),
     world_after w (users w) cs' 1 0 2
                 [CallInsertOne "complaints"; CallFindOne "users"])
  else
    match find (match_user (UId (cUserID body))) (users w) with
    | None =>
        (Json (JComplaint created),
         world_after w (users w) cs' 1 0 2
                     [CallInsertOne "complaints"; CallFindOne "users"])
    | Some user =>
        if fault_at 2 w then
          (Json (JComplaint created),
           world_after w (users w) cs' 1 0 3
                       [CallInsertOne "complaints"; CallFindOne "users";
                        CallUpdateOne "users"])
        else
          (Json (JComplaint created),
           world_after w
             (update_first (match_user (UId (uID user)))
                (set_uComplaints (uComplaints user ++ [next_oid w])) (users w))
             cs' 1 0 3
             [CallInsertOne "complaints"; CallFindOne "users";
              CallUpdateOne "users"])
    end.
Proof.
  destruct w as [us cs os rs fs tr bs ds]. unfold_handlers.
  cbn [users complaints oids rands faults trace fst snd set_cID set_cResolved
       cID cTitle cSummary cRating cResolved cUserID].
  destruct fs as [| [] fs]; world_eq;
    (destruct (existsb _ cs); world_eq);
    try (destruct fs as [| [] fs]; world_eq);
    (destruct (find _ us) as [user |]; world_eq);
    cbn [set_uComplaints uID uSecretCode uName uEmail uComplaints
         apply_user_update];
    try (destruct fs as [| [] fs]; world_eq).
Qed.

Lemma loginHandler_run (w : World) (secretCode : string) :
  loginHandler secretCode w =
  (if fault_at 0 w then HttpError "User not found" StatusNotFound
   else match find (match_user (USecretCode secretCode)) (users w) with
        | Some user => Json (JUser user)
        | None => HttpError "User not found" StatusNotFound
        end,
   world_after w (users w) (complaints w) 0 0 1 [CallFindOne "users"]).
Proof.
  destruct w as [us cs os rs fs tr bs ds]. unfold_handlers.
  cbn [users complaints oids rands faults trace fst snd].
  destruct fs as [| [] fs]; world_eq;
    destruct (find _ us); world_eq.
Qed.

(** *** The cursor loop *)

Lemma all_false_tl (fs : list bool) :
  (forall k, nth k fs false = false) ->
  hd false fs = false /\ (forall k, nth k (tl fs) false = false).
Proof.
  intros H. split.
  - specialize (H 0%nat). now destruct fs.
  - intros k. specialize (H (S k)). destruct fs; [now destruct k | exact H].
Qed.

(** The loop on a cursor with nothing pending: it ends at once, after one
    fetch that brings nothing when the server still held the cursor. *)
Lemma drain_nil (buffered : nat) (acc : list Complaint) (w : World) :
  drain [] buffered acc w =
  (Ok acc,
   match buffered, batches w with
   | O, _ :: _ =>
       makeWorld (users w) (complaints w) (oids w) (rands w) (tl (faults w))
                 (trace w ++ [CallGetMore "complaints"])
                 (if hd false (faults w) then batches w else tl (batches w))
                 (decodes w)
   | _, _ => w
   end).
Proof.
  destruct w as [us cs os rs fs tr bs ds].
  cbn [users complaints oids rands faults trace batches decodes].
  destruct buffered as [| k]; destruct bs as [| b bs]; destruct fs as [| [] fs];
    reflexivity.
Qed.

(** One round of the loop, written out. *)
Lemma drain_cons (doc : Complaint) (pending : list Complaint) (buffered : nat)
    (acc : list Complaint) (w : World) :
  drain (doc :: pending) buffered acc w =
  match buffered with
  | S k =>
      if hd false (decodes w) then (Err ErrDriver, skip_decodes 1 w)
      else drain pending k (acc ++ [doc]) (skip_decodes 1 w)
  | O =>
      if hd false (faults w) then
        (Ok acc,
         makeWorld (users w) (complaints w) (oids w) (rands w) (tl (faults w))
                   (trace w ++ [CallGetMore "complaints"]) (batches w) (decodes w))
      else
        let w2 :=
          makeWorld (users w) (complaints w) (oids w) (rands w) (tl (faults w))
                    (trace w ++ [CallGetMore "complaints"]) (tl (batches w))
                    (tl (decodes w)) in
        if hd false (decodes w) then (Err ErrDriver, w2)
        else drain pending
                   (match batches w with
                    | [] => List.length (doc :: pending)
                    | more :: _ => S more
                    end - 1)
                   (acc ++ [doc]) w2
  end.
Proof.
  destruct w as [us cs os rs fs tr bs ds]. unfold skip_decodes.
  cbn [users complaints oids rands faults trace batches decodes].
  destruct buffered as [| k]; destruct fs as [| [] fs]; destruct ds as [| [] ds];
    destruct bs as [| b bs]; reflexivity.
Qed.

(** The loop reads only: it leaves the collections and the other tapes
    alone, issues nothing but fetches of further batches, and ends with
    an error or with the documents of the cursor up to some point. *)
Lemma drain_spec (pending : list Complaint) :
  forall (buffered : nat) (acc : list Complaint) (w : World),
    (fst (drain pending buffered acc w) = Err ErrDriver \/
     exists l rest, fst (drain pending buffered acc w) = Ok l
                    /\ acc ++ pending = l ++ rest) /\
    users (snd (drain pending buffered acc w)) = users w /\
    complaints (snd (drain pending buffered acc w)) = complaints w /\
    oids (snd (drain pending buffered acc w)) = oids w /\
    rands (snd (drain pending buffered acc w)) = rands w /\
    exists n, trace (snd (drain pending buffered acc w))
              = trace w ++ repeat (CallGetMore "complaints") n.
Proof.
  assert (Hstep : forall pending (acc : list Complaint) doc l rest,
            (acc ++ [doc]) ++ pending = l ++ rest ->
            acc ++ doc :: pending = l ++ rest)
    by (intros p a d l r H; now rewrite <- H, <- app_assoc).
  induction pending as [| doc pending IH]; intros buffered acc w.
  - rewrite drain_nil. cbn [fst snd].
    split; [right; exists acc, []; now rewrite !app_nil_r |].
    destruct buffered as [| k]; [destruct (batches w) as [| b bs] |];
      cbn [users complaints oids rands trace]; repeat split;
      try (exists 0%nat; cbn [repeat]; now rewrite app_nil_r).
    now exists 1%nat.
  - rewrite drain_cons. destruct buffered as [| k].
    + destruct (hd false (faults w)).
      * cbn [fst snd trace users complaints oids rands].
        repeat split; [right; now exists acc, (doc :: pending) | now exists 1%nat].
      * cbv zeta. destruct (hd false (decodes w)).
        -- cbn [fst snd trace users complaints oids rands].
           repeat split; [now left | now exists 1%nat].
        -- match goal with
           | |- context [drain pending ?b ?a ?w1] =>
               destruct (IH b a w1) as (Hres & Hu & Hc & Ho & Hr & n & Ht)
           end.
           cbn [users complaints oids rands trace] in Hu, Hc, Ho, Hr, Ht.
           repeat split; try assumption.
           ++ destruct Hres as [He | (l & rest & Hl & Happ)]; [now left |].
              right. exists l, rest. split; [exact Hl | now apply Hstep].
           ++ exists (S n). rewrite Ht, <- app_assoc. reflexivity.
    + destruct (hd false (decodes w)).
      * unfold skip_decodes. cbn [fst snd trace users complaints oids rands].
        repeat split; [now left |]. exists 0%nat. cbn [repeat]. now rewrite app_nil_r.
      * destruct (IH k (acc ++ [doc]) (skip_decodes 1 w))
          as (Hres & Hu & Hc & Ho & Hr & n & Ht).
        unfold skip_decodes in Hu, Hc, Ho, Hr, Ht at 2.
        cbn [users complaints oids rands trace] in Hu, Hc, Ho, Hr, Ht.
        repeat split; try assumption.
        -- destruct Hres as [He | (l & rest & Hl & Happ)]; [now left |].
           right. exists l, rest. split; [exact Hl | now apply Hstep].
        -- now exists n.
Qed.

(** With no failure the loop reads the cursor to its end. *)
Lemma drain_no_failure (pending : list Complaint) :
  forall (buffered : nat) (acc : list Complaint) (w : World),
    no_failure w -> fst (drain pending buffered acc w) = Ok (acc ++ pending).
Proof.
  unfold no_failure, fault_at, decode_fails_at.
  induction pending as [| doc pending IH]; intros buffered acc w [Hf Hd].
  - rewrite drain_nil. cbn [fst]. now rewrite app_nil_r.
  - rewrite drain_cons. destruct (all_false_tl _ Hf) as [Hf0 Hftl].
    destruct (all_false_tl _ Hd) as [Hd0 Hdtl].
    destruct buffered as [| k].
    + rewrite Hf0. cbv zeta. rewrite Hd0.
      rewrite IH; [now rewrite <- app_assoc | now split].
    + rewrite Hd0. rewrite IH; [now rewrite <- app_assoc | now split].
Qed.

Lemma skip_decodes_S (n : nat) (w : World) :
  skip_decodes n (skip_decodes 1 w) = skip_decodes (S n) w.
Proof.
  unfold skip_decodes. cbn [users complaints oids rands faults trace batches decodes].
  f_equal. destruct (decodes w) as [| b ds]; [now destruct n | reflexivity].
Qed.

(** While documents are buffered and decode, the loop takes them without
    a call to the server. *)
Lemma drain_buffered (pre : list Complaint) :
  forall (post : list Complaint) (buffered : nat) (acc : list Complaint) (w : World),
    (List.length pre <= buffered)%nat ->
    (forall k, (k < List.length pre)%nat -> decode_fails_at k w = false) ->
    drain (pre ++ post) buffered acc w
    = drain post (buffered - List.length pre) (acc ++ pre)
            (skip_decodes (List.length pre) w).
Proof.
  induction pre as [| doc pre IH]; intros post buffered acc w Hlen Hok.
  - cbn [app List.length]. rewrite Nat.sub_0_r, app_nil_r. now destruct w.
  - cbn [app List.length] in *. rewrite drain_cons.
    destruct buffered as [| k]; [lia |].
    pose proof (Hok 0%nat ltac:(lia)) as H0. unfold decode_fails_at in H0.
    replace (hd false (decodes w)) with false by (now destruct (decodes w)).
    rewrite IH.
    + rewrite skip_decodes_S, <- app_assoc. reflexivity.
    + lia.
    + intros j Hj. specialize (Hok (S j) ltac:(lia)).
      unfold decode_fails_at, skip_decodes in *. cbn [decodes].
      destruct (decodes w); [now destruct j | exact Hok].
Qed.

(** *** The listings *)

Lemma getAllComplaintsForAdminHandler_run :
  getAllComplaintsForAdminHandler = listing CAll.
Proof. reflexivity. Qed.

Lemma getAllComplaintsForUserHandler_run (w : World) (secretCode : string) :
  getAllComplaintsForUserHandler secretCode w =
  if fault_at 0 w then
    (HttpError "User not found" StatusNotFound,
     world_after w (users w) (complaints w) 0 0 1 [CallFindOne "users"])
  else
    match find (match_user (USecretCode secretCode)) (users w) with
    | None =>
        (HttpError "User not found" StatusNotFound,
         world_after w (users w) (complaints w) 0 0 1 [CallFindOne "users"])
    | Some user =>
        listing (CUserId (uID user))
                (world_after w (users w) (complaints w) 0 0 1 [CallFindOne "users"])
    end.
Proof.
  destruct w as [us cs os rs fs tr bs ds].
  unfold getAllComplaintsForUserHandler, listing, users_FindOne, bind, ret,
    storage_call, get_users, http_Error.
  cbn [users complaints oids rands faults trace batches decodes fst snd].
  destruct fs as [| [] fs]; world_eq;
    destruct (find _ us) as [user |]; world_eq.
Qed.

(** The world in which the cursor loop of a listing starts. *)
Lemma listing_unfold (f : ComplaintFilter) (w : World) :
  listing f w =
  if fault_at 0 w then
    (HttpError (Error ErrDriver) StatusInternalServerError,
     world_after w (users w) (complaints w) 0 0 1 [CallFind "complaints"])
  else
    let looped :=
      drain (filter (match_complaint f) (complaints w)) firstBatch []
            (world_after w (users w) (complaints w) 0 0 1 [CallFind "complaints"]) in
    (match fst looped with
     | Err err => HttpError (Error err) StatusInternalServerError
     | Ok found => Json (JComplaints found)
     end, snd looped).
Proof.
  destruct w as [us cs os rs fs tr bs ds].
  unfold listing, complaints_Find, bind, ret, storage_call, get_complaints,
    http_Error, json_Encode.
  cbn [users complaints oids rands faults trace batches decodes fst snd pending buffered].
  destruct fs as [| [] fs]; world_eq; cbn [pending buffered];
    match goal with
    | |- context [drain ?p ?b ?a ?w1] => destruct (drain p b a w1) as [[l | e] w2]
    end; reflexivity.
Qed.

(** A listing reads only, and answers 500 or with the matching complaints
    up to some point, in stored order. *)
Lemma listing_spec (f : ComplaintFilter) (w : World) :
  (response (listing f) w = HttpError (Error ErrDriver) StatusInternalServerError \/
   exists l rest, response (listing f) w = Json (JComplaints l)
                  /\ filter (match_complaint f) (complaints w) = l ++ rest) /\
  users (after (listing f) w) = users w /\
  complaints (after (listing f) w) = complaints w /\
  oids (after (listing f) w) = oids w /\
  rands (after (listing f) w) = rands w /\
  exists n, trace (after (listing f) w)
            = trace w ++ CallFind "complaints" :: repeat (CallGetMore "complaints") n.
Proof.
  unfold response, after. rewrite listing_unfold.
  destruct (fault_at 0 w).
  - unfold world_after. cbn [fst snd users complaints oids rands trace skipn].
    repeat split; [now left | now exists 0%nat].
  - cbv zeta. cbn [fst snd].
    destruct (drain_spec (filter (match_complaint f) (complaints w)) firstBatch []
                (world_after w (users w) (complaints w) 0 0 1 [CallFind "complaints"]))
      as (Hres & Hu & Hc & Ho & Hr & n & Ht).
    unfold world_after in Hu, Hc, Ho, Hr, Ht at 2.
    cbn [users complaints oids rands trace skipn] in Hu, Hc, Ho, Hr, Ht.
    repeat split; try assumption.
    + destruct Hres as [-> | (l & rest & -> & Happ)]; [now left |].
      right. now exists l, rest.
    + exists n. rewrite Ht, <- app_assoc. reflexivity.
Qed.

Lemma listing_users (f : ComplaintFilter) (w : World) :
  users (snd (listing f w)) = users w.
Proof. apply (listing_spec f w). Qed.

Lemma listing_complaints (f : ComplaintFilter) (w : World) :
  complaints (snd (listing f w)) = complaints w.
Proof. apply (listing_spec f w). Qed.

Lemma forallb_is_read_getmore (n : nat) :
  forallb is_read (repeat (CallGetMore "complaints") n) = true.
Proof. induction n as [| n IH]; [reflexivity | exact IH]. Qed.

Lemma listing_read_only (f : ComplaintFilter) (w : World) :
  users (snd (listing f w)) = users w /\
  complaints (snd (listing f w)) = complaints w /\
  oids (snd (listing f w)) = oids w /\
  rands (snd (listing f w)) = rands w /\
  exists cl, trace (snd (listing f w)) = trace w ++ cl
             /\ forallb is_read cl = true.
Proof.
  destruct (listing_spec f w) as (_ & Hu & Hc & Ho & Hr & n & Ht).
  repeat split; try assumption.
  eexists. split; [exact Ht |]. cbn [forallb is_read].
  apply forallb_is_read_getmore.
Qed.

Lemma listing_not_400 (f : ComplaintFilter) (w : World) (msg : string) :
  fst (listing f w) = HttpError msg StatusBadRequest -> False.
Proof.
  destruct (listing_spec f w) as ([H | (l & rest & H & _)] & _);
    unfold response in H; rewrite H; discriminate.
Qed.

Lemma listing_not_404 (f : ComplaintFilter) (w : World) (msg : string) :
  fst (listing f w) = HttpError msg StatusNotFound -> False.
Proof.
  destruct (listing_spec f w) as ([H | (l & rest & H & _)] & _);
    unfold response in H; rewrite H; discriminate.
Qed.

Lemma no_failure_world_after (w : World) us cs (a b j : nat) cl :
  no_failure w -> no_failure (world_after w us cs a b j cl).
Proof.
  unfold no_failure, fault_at, decode_fails_at, world_after. cbn [faults decodes].
  intros [Hf Hd]. split; [| exact Hd]. intros k. rewrite nth_skipn_add. apply Hf.
Qed.

(** With no failure a listing answers with every matching complaint. *)
Lemma no_failure_mkWorld us cs os rs tr :
  no_failure (mkWorld us cs os rs [] tr).
Proof.
  split; intros k; unfold fault_at, decode_fails_at, mkWorld;
    cbn [faults decodes]; now destruct k.
Qed.

Lemma listing_no_failure (f : ComplaintFilter) (w : World) :
  no_failure w ->
  response (listing f) w
  = Json (JComplaints (filter (match_complaint f) (complaints w))).
Proof.
  intros Hw. unfold response. rewrite listing_unfold, (proj1 Hw 0%nat).
  cbv zeta. cbn [fst].
  rewrite drain_no_failure; [reflexivity | now apply no_failure_world_after].
Qed.

(** When the first batch is used up and fetching the next one fails, a
    listing answers 200 with the first batch alone. *)
Lemma listing_truncated (f : ComplaintFilter) (w : World)
    (pre post : list Complaint) (doc : Complaint) :
  filter (match_complaint f) (complaints w) = pre ++ doc :: post ->
  List.length pre = firstBatch ->
  fault_at 0 w = false ->
  fault_at 1 w = true ->
  (forall k, (k < firstBatch)%nat -> decode_fails_at k w = false) ->
  response (listing f) w = Json (JComplaints pre).
Proof.
  intros Hmatch Hlen Hfind Hmore Hdec. unfold response.
  rewrite listing_unfold, Hfind. cbv zeta. cbn [fst].
  rewrite Hmatch, drain_buffered.
  - rewrite Hlen, Nat.sub_diag, drain_cons.
    unfold skip_decodes, world_after. cbn [faults].
    replace (hd false (skipn 1 (faults w))) with true; [reflexivity |].
    unfold fault_at in Hmore. rewrite <- Hmore.
    destruct (faults w) as [| b [| b' fs]]; reflexivity.
  - lia.
  - intros k Hk. rewrite Hlen in Hk. exact (Hdec k Hk).
Qed.

Lemma viewComplaintHandler_run (w : World) (complaintID : string) :
  viewComplaintHandler complaintID w =
  match ObjectIDFromHex complaintID with
  | Err _ => (HttpError "Invalid complaint ID" StatusBadRequest, w)
  | Ok oid =>
      (if fault_at 0 w then HttpError "Complaint not found" StatusNotFound
       else match find (match_complaint (CId oid)) (complaints w) with
            | Some complaint => Json (JComplaint complaint)
            | None => HttpError "Complaint not found" StatusNotFound
            end,
       world_after w (users w) (complaints w) 0 0 1 [CallFindOne "complaints"])
  end.
Proof.
  destruct w as [us cs os rs fs tr bs]. unfold_handlers.
  destruct (ObjectIDFromHex complaintID) as [oid | e]; [| reflexivity].
  cbn [users complaints oids rands faults trace fst snd].
  destruct fs as [| [] fs]; world_eq;
    destruct (find _ cs); world_eq.
Qed.

Lemma resolveComplaintHandler_run (w : World) (complaintID : string) :
  resolveComplaintHandler complaintID w =
  match ObjectIDFromHex complaintID with
  | Err _ => (HttpError "Invalid complaint ID" StatusBadRequest, w)
  | Ok oid =>
      if fault_at 0 w then
        (HttpError "Complaint not found" StatusNotFound,
         world_after w (users w) (complaints w) 0 0 1 [CallFindOne "complaints"])
      else
        match find (match_complaint (CId oid)) (complaints w) with
        | None =>
            (HttpError "Complaint not found" StatusNotFound,
             world_after w (users w) (complaints w) 0 0 1
                         [CallFindOne "complaints"])
        | Some complaint =>
            if fault_at 1 w then
              (HttpError (Error ErrDriver) StatusInternalServerError,
               world_after w (users w) (complaints w) 0 0 2
                           [CallFindOne "complaints"; CallUpdateOne "complaints"])
            else
              (Json (JComplaint (set_cResolved true complaint)),
               world_after w (users w)
                 (update_first (match_complaint (CId oid)) (set_cResolved true)
                               (complaints w))
                 0 0 2
                 [CallFindOne "complaints"; CallUpdateOne "complaints"])
        end
  end.
Proof.
  destruct w as [us cs os rs fs tr bs]. unfold_handlers.
  destruct (ObjectIDFromHex complaintID) as [oid | e]; [| reflexivity].
  cbn [users complaints oids rands faults trace fst snd].
  destruct fs as [| [] fs]; world_eq;
    (destruct (find _ cs) as [complaint |]; world_eq);
    cbn [set_cResolved cResolved apply_complaint_update];
    try (destruct fs as [| [] fs]; world_eq).
Qed.

Lemma users_FindOne_run (w : World) (f : UserFilter) :
  users_FindOne f w =
  (if fault_at 0 w then Err ErrDriver
   else match find (match_user f) (users w) with
        | Some u => Ok u
        | None => Err ErrNoDocuments
        end,
   world_after w (users w) (complaints w) 0 0 1 [CallFindOne "users"]).
Proof.
  destruct w as [us cs os rs fs tr bs]. unfold_handlers.
  cbn [users complaints oids rands faults trace fst snd].
  destruct fs as [| [] fs]; world_eq; destruct (find _ us); world_eq.
Qed.

(* ===================================================================== *)
(** ** Registration *)

(** C1.  A registration request with a well-formed body, when it returns a
    User, returns the record it created and stored: the identifier is the
    one just generated (and was not in use), the secret code is six decimal
    digits spelling a number from 0 to 999999, and the complaints sequence
    is empty.  The request does return that record, secret code included,
    whenever the insert goes through. *)
Theorem register_returns_created_user (w : World) (body : User) :
  let created := created_user w body in
  let out := registerHandler (Decoded body) in
  (six_digits (uSecretCode created) = true /\
   decimal_value (uSecretCode created) 0 = next_draw w /\
   0 <= next_draw w <= 999999) /\
  uComplaints created = [] /\
  uID created = next_oid w /\
  (forall v, response out w = Json (JUser v) ->
     v = created /\
     ~ In (uID v) (map uID (users w)) /\
     users (after out w) = users w ++ [v]) /\
  (fault_at 0 w = false -> ~ In (next_oid w) (map uID (users w)) ->
     response out w = Json (JUser created) /\
     users (after out w) = users w ++ [created]).
Proof.
  intros created out.
  pose proof (next_code_six_digits w) as [Hsix Hval].
  pose proof (next_draw_range w) as Hrange.
  repeat split; try assumption; try lia.
  - pose proof (registerHandler_run w body) as Hrun.
    unfold response, out in H. rewrite Hrun in H.
    destruct (fault_at 0 w); [discriminate |].
    destruct (existsb _ (users w)); [discriminate |].
    cbn [fst] in H. now injection H as <-.
  - pose proof (registerHandler_run w body) as Hrun.
    unfold response, out in H. rewrite Hrun in H.
    destruct (fault_at 0 w); [discriminate |].
    destruct (existsb _ (users w)) eqn:Hdup; [discriminate |].
    cbn [fst] in H. injection H as <-.
    now apply existsb_user_id.
  - pose proof (registerHandler_run w body) as Hrun.
    unfold response, after, out in *. rewrite Hrun in *.
    destruct (fault_at 0 w); [discriminate |].
    destruct (existsb _ (users w)); [discriminate |].
    cbn [fst snd] in *. injection H as <-. reflexivity.
  - unfold response, out. rewrite registerHandler_run, H.
    apply existsb_user_id in H0. fold (next_oid w) in H0. now rewrite H0.
  - unfold after, out. rewrite registerHandler_run, H.
    apply existsb_user_id in H0. now rewrite H0.
Qed.

Lemma register_returns_created_user_witness :
  response (registerHandler (Decoded forged_user)) world_fresh
  = Json (JUser (mkUser 5%N "234567" "A" "a@x.com" [])).
Proof.
  destruct (register_returns_created_user world_fresh forged_user)
    as (_ & _ & _ & _ & Hok).
  apply Hok; [reflexivity | cbn; tauto].
Defined.

(** C9.  The server-managed fields of a request body have no influence.
    Two registration bodies with the same name and email give the same
    response and the same stored state whatever their id, secretCode and
    complaints; two submission bodies with the same title, summary, rating
    and userId do whatever their id and resolved.  What a registration
    stores, if anything, is the record with the generated identifier and
    code and no complaints; what a submission stores, if anything, is the
    complaint with the generated identifier and [resolved = false]. *)
Theorem server_managed_fields_ignored (w : World) :
  (forall b1 b2 : User,
     uName b1 = uName b2 -> uEmail b1 = uEmail b2 ->
     registerHandler (Decoded b1) w = registerHandler (Decoded b2) w) /\
  (forall b1 b2 : Complaint,
     cTitle b1 = cTitle b2 -> cSummary b1 = cSummary b2 ->
     cRating b1 = cRating b2 -> cUserID b1 = cUserID b2 ->
     submitComplaintHandler (Decoded b1) w = submitComplaintHandler (Decoded b2) w) /\
  (forall b : User,
     let stored := users (after (registerHandler (Decoded b)) w) in
     stored = users w \/
     stored = users w ++ [mkUser (next_oid w) (next_code w) (uName b) (uEmail b) []]) /\
  (forall b : Complaint,
     let stored := complaints (after (submitComplaintHandler (Decoded b)) w) in
     stored = complaints w \/
     stored = complaints w ++
       [mkComplaint (next_oid w) (cTitle b) (cSummary b) (cRating b) false (cUserID b)]).
Proof.
  repeat split.
  - intros b1 b2 Hn He. rewrite !registerHandler_run.
    unfold created_user. now rewrite Hn, He.
  - intros b1 b2 Ht Hs Hr Hu. rewrite !submitComplaintHandler_run.
    unfold created_complaint. now rewrite Ht, Hs, Hr, Hu.
  - intros b stored. subst stored. unfold after.
    rewrite registerHandler_run.
    destruct (fault_at 0 w); [now left |].
    destruct (existsb _ (users w)); [now left | now right].
  - intros b stored. subst stored. unfold after.
    rewrite submitComplaintHandler_run. cbv zeta.
    destruct (fault_at 0 w); [now left |].
    destruct (existsb _ (complaints w)); [now left |].
    destruct (fault_at 1 w); [now right |].
    destruct (find _ (users w)); [| now right].
    destruct (fault_at 2 w); now right.
Qed.

Lemma server_managed_fields_ignored_witness :
  registerHandler (Decoded forged_user) world_fresh
  = registerHandler (Decoded (mkUser 0%N "" "A" "a@x.com" [])) world_fresh /\
  submitComplaintHandler (Decoded forged_complaint) world_user
  = submitComplaintHandler (Decoded (mkComplaint 0%N "T" "s" 3 false 5%N)) world_user.
Proof.
  split.
  - apply (server_managed_fields_ignored world_fresh); reflexivity.
  - apply (server_managed_fields_ignored world_user); reflexivity.
Defined.

(* ===================================================================== *)
(** ** Submission *)

(** C2.  Once the complaint has been inserted, a submission with a
    well-formed body answers with the created complaint whatever happens
    in the step that updates the owner's complaint list: with no user of
    that [userId], or with the driver failing on the lookup or on the
    update, the answer is the same and the users are left as they were. *)
Theorem submit_returns_created_complaint (w : World) (body : Complaint) :
  fault_at 0 w = false ->
  ~ In (next_oid w) (map cID (complaints w)) ->
  let out := submitComplaintHandler (Decoded body) in
  response out w = Json (JComplaint (created_complaint w body)) /\
  complaints (after out w) = complaints w ++ [created_complaint w body] /\
  (find (match_user (UId (cUserID body))) (users w) = None
   \/ fault_at 1 w = true \/ fault_at 2 w = true ->
   users (after out w) = users w).
Proof.
  intros Hins Hfresh out. apply existsb_complaint_id in Hfresh.
  unfold response, after, out. rewrite submitComplaintHandler_run. cbv zeta.
  rewrite Hins, Hfresh.
  destruct (fault_at 1 w) eqn:Hfind.
  - repeat split.
  - destruct (find _ (users w)) as [user |] eqn:Huser.
    + destruct (fault_at 2 w) eqn:Hupd.
      * repeat split.
      * repeat split. intros [H | [H | H]]; discriminate.
    + repeat split.
Qed.

Lemma submit_returns_created_complaint_witness :
  response (submitComplaintHandler (Decoded forged_complaint)) world_faulty
  = Json (JComplaint (mkComplaint 7%N "T" "s" 3 false 5%N)) /\
  users (after (submitComplaintHandler (Decoded forged_complaint)) world_faulty) = [].
Proof.
  destruct (submit_returns_created_complaint world_faulty forged_complaint)
    as (Hresp & _ & Husers).
  - reflexivity.
  - cbn. tauto.
  - split; [exact Hresp | apply Husers; now left].
Defined.

Lemma find_update_first_unique {A : Type} (p q : A -> bool) (f : A -> A)
    (l : list A) (a : A) :
  find q l = Some a ->
  p a = true ->
  (forall b, In b l -> p b = true -> b = a) ->
  (forall b, q (f b) = q b) ->
  find q (update_first p f l) = Some (f a).
Proof.
  intros Hfind Hpa Huniq Hq. induction l as [| b l IH]; [discriminate |].
  cbn [find update_first] in *.
  destruct (q b) eqn:Hqb.
  - injection Hfind as ->. rewrite Hpa. cbn [find]. now rewrite Hq, Hqb.
  - destruct (p b) eqn:Hpb.
    + assert (b = a) by (apply Huniq; [now left | exact Hpb]). subst b.
      apply find_some in Hfind. destruct Hfind as [_ Hqa]. congruence.
    + cbn [find]. rewrite Hqb. apply IH; [exact Hfind |].
      intros b' Hb'. apply Huniq. now right.
Qed.

(** C4.  A complaint submitted for an existing user, with no storage
    failure, is appended to that user's complaint list: fetching the user
    by identifier afterwards gives the user with the new identifier at the
    end of the list stored before, and so does a login with the user's
    secret code when the user is the one the code and the identifier
    select. *)
Theorem submit_appends_to_user (w : World) (body : Complaint) (u : User) :
  find (match_user (UId (cUserID body))) (users w) = Some u ->
  ~ In (next_oid w) (map cID (complaints w)) ->
  (forall k, (k < 4)%nat -> fault_at k w = false) ->
  let w' := after (submitComplaintHandler (Decoded body)) w in
  let u' := set_uComplaints (uComplaints u ++ [next_oid w]) u in
  response (submitComplaintHandler (Decoded body)) w
    = Json (JComplaint (created_complaint w body)) /\
  cID (created_complaint w body) = next_oid w /\
  response (users_FindOne (UId (cUserID body))) w' = Ok u' /\
  (find (match_user (USecretCode (uSecretCode u))) (users w) = Some u ->
   (forall v, In v (users w) -> uID v = uID u -> v = u) ->
   response (loginHandler (uSecretCode u)) w' = Json (JUser u')).
Proof.
  intros Hu Hfresh Hok w' u'. apply existsb_complaint_id in Hfresh.
  pose proof (find_some _ _ Hu) as [_ Hid].
  cbn [match_user] in Hid. apply N.eqb_eq in Hid.
  assert (Hw' : w' = world_after w
            (update_first (match_user (UId (uID u)))
               (set_uComplaints (uComplaints u ++ [next_oid w])) (users w))
            (complaints w ++ [created_complaint w body]) 1 0 3
            [CallInsertOne "complaints"; CallFindOne "users";
             CallUpdateOne "users"]).
  { unfold w', after. rewrite submitComplaintHandler_run. cbv zeta.
    rewrite !Hok by lia. now rewrite Hfresh, Hu. }
  repeat split.
  - unfold response. rewrite submitComplaintHandler_run. cbv zeta.
    rewrite !Hok by lia. now rewrite Hfresh, Hu.
  - unfold response. rewrite users_FindOne_run, Hw', fault_at_world_after.
    rewrite Hok by lia. cbn [fst]. unfold world_after. cbn [users].
    rewrite Hid.
    rewrite (find_update_first _ (match_user (UId (cUserID body))) _ _ u);
      [reflexivity | exact Hu | reflexivity | reflexivity].
  - intros Hcode Huniq. unfold response.
    rewrite loginHandler_run, Hw', fault_at_world_after.
    rewrite Hok by lia. cbn [fst]. unfold world_after. cbn [users].
    rewrite (find_update_first_unique (match_user (UId (uID u))) _ _ _ u);
      [reflexivity | exact Hcode | cbn [match_user]; apply N.eqb_refl | | reflexivity].
    intros v Hv Hpv. cbn [match_user] in Hpv. apply N.eqb_eq in Hpv.
    now apply Huniq.
Qed.

Lemma submit_appends_to_user_witness :
  response (users_FindOne (UId 5%N))
           (after (submitComplaintHandler (Decoded forged_complaint)) world_user)
  = Ok (mkUser 5%N "234567" "A" "a@x.com" [7%N]).
Proof.
  destruct (submit_appends_to_user world_user forged_complaint sample_user)
    as (_ & _ & Hfetch & _).
  - reflexivity.
  - cbn. tauto.
  - intros k Hk. unfold fault_at. cbn [faults world_user].
    destruct k as [| k]; [reflexivity | now destruct k].
  - exact Hfetch.
Defined.

(* ===================================================================== *)
(** ** Viewing and resolving *)

Lemma find_complaint_id (oid : ObjectID) (cs : list Complaint) :
  In oid (map cID cs) ->
  exists c, find (match_complaint (CId oid)) cs = Some c
            /\ In c cs /\ cID c = oid.
Proof.
  intros Hin. destruct (find (match_complaint (CId oid)) cs) as [c |] eqn:Hfind.
  - exists c. apply find_some in Hfind. destruct Hfind as [Hc Hm].
    cbn [match_complaint] in Hm. apply N.eqb_eq in Hm. auto.
  - apply in_map_iff in Hin. destruct Hin as (c & Hid & Hc).
    apply (find_none _ _ Hfind) in Hc. cbn [match_complaint] in Hc.
    apply N.eqb_neq in Hc. contradiction.
Qed.

Lemma find_complaint_no_id (oid : ObjectID) (cs : list Complaint) :
  ~ In oid (map cID cs) -> find (match_complaint (CId oid)) cs = None.
Proof.
  intros Hnot. apply find_none_iff. intros c Hc. cbn [match_complaint].
  apply N.eqb_neq. intros Hid. apply Hnot. rewrite <- Hid. now apply in_map.
Qed.

(** C3.  A view request whose [complaintId] does not parse is answered
    400 "Invalid complaint ID" with no storage call issued and the world
    left as it was; one that parses to an identifier no stored complaint
    has is answered 404; one that parses to the identifier of a stored
    complaint is answered with that complaint, when the lookup itself
    does not fail. *)
Theorem view_outcomes (w : World) (complaintId : string) :
  let out := viewComplaintHandler complaintId in
  (forall e, ObjectIDFromHex complaintId = Err e ->
     response out w = HttpError "Invalid complaint ID" 400 /\
     calls out w = [] /\
     after out w = w) /\
  (forall oid, ObjectIDFromHex complaintId = Ok oid ->
     ~ In oid (map cID (complaints w)) ->
     response out w = HttpError "Complaint not found" 404) /\
  (forall oid, ObjectIDFromHex complaintId = Ok oid ->
     In oid (map cID (complaints w)) ->
     fault_at 0 w = false ->
     exists c, In c (complaints w) /\ cID c = oid /\
               find (match_complaint (CId oid)) (complaints w) = Some c /\
               response out w = Json (JComplaint c)).
Proof.
  intros out. pose proof (viewComplaintHandler_run w complaintId) as Hrun.
  repeat split.
  - unfold response, out. rewrite Hrun, H. reflexivity.
  - rewrite H in Hrun. exact (calls_unchanged _ _ _ Hrun).
  - unfold after, out. rewrite Hrun, H. reflexivity.
  - intros oid Hoid Hnone. unfold response, out. rewrite Hrun, Hoid.
    rewrite (find_complaint_no_id _ _ Hnone). cbn [fst].
    now destruct (fault_at 0 w).
  - intros oid Hoid Hin Hok.
    destruct (find_complaint_id _ _ Hin) as (c & Hfind & Hc & Hid).
    exists c. repeat split; try assumption.
    unfold response, out. rewrite Hrun, Hoid, Hok, Hfind. reflexivity.
Qed.

Lemma view_outcomes_witness :
  response (viewComplaintHandler "not-an-id") world_complaint
  = HttpError "Invalid complaint ID" 400 /\
  response (viewComplaintHandler "0000000000000000000000ff") world_complaint
  = HttpError "Complaint not found" 404 /\
  exists c, response (viewComplaintHandler sample_id) world_complaint
            = Json (JComplaint c).
Proof.
  split; [| split].
  - destruct (view_outcomes world_complaint "not-an-id") as (Hbad & _ & _).
    apply (Hbad ErrInvalidHex). reflexivity.
  - destruct (view_outcomes world_complaint "0000000000000000000000ff")
      as (_ & Hmiss & _).
    apply (Hmiss 255%N).
    + reflexivity.
    + cbn. intros [H | []]. discriminate.
  - destruct (view_outcomes world_complaint sample_id) as (_ & _ & Hfound).
    destruct (Hfound 7%N) as (c & _ & _ & _ & Hresp).
    + reflexivity.
    + cbn. now left.
    + reflexivity.
    + exists c. exact Hresp.
Defined.

(** C10.  A resolve request that ends in an error for its identifier
    writes nothing: when [complaintId] does not parse the answer is 400
    and the world is untouched; when it parses to an identifier no stored
    complaint has the answer is 404, the one storage call issued is the
    lookup, and both collections are as before.  The update of [resolved]
    is issued only after the lookup has returned a complaint. *)
Theorem resolve_atomic_on_error (w : World) (complaintId : string) :
  let out := resolveComplaintHandler complaintId in
  (forall e, ObjectIDFromHex complaintId = Err e ->
     response out w = HttpError "Invalid complaint ID" 400 /\
     after out w = w) /\
  (forall oid, ObjectIDFromHex complaintId = Ok oid ->
     ~ In oid (map cID (complaints w)) ->
     response out w = HttpError "Complaint not found" 404 /\
     calls out w = [CallFindOne "complaints"] /\
     users (after out w) = users w /\
     complaints (after out w) = complaints w) /\
  (In (CallUpdateOne "complaints") (calls out w) ->
   exists oid c,
     ObjectIDFromHex complaintId = Ok oid /\
     fault_at 0 w = false /\
     find (match_complaint (CId oid)) (complaints w) = Some c /\
     calls out w = [CallFindOne "complaints"; CallUpdateOne "complaints"]).
Proof.
  intros out. pose proof (resolveComplaintHandler_run w complaintId) as Hrun.
  split; [| split].
  - intros e He. unfold response, after, out. rewrite Hrun, He. now split.
  - intros oid Hoid Hnone. rewrite Hoid in Hrun.
    rewrite (find_complaint_no_id _ _ Hnone) in Hrun.
    assert (Hrun' : resolveComplaintHandler complaintId w =
              (HttpError "Complaint not found" StatusNotFound,
               world_after w (users w) (complaints w) 0 0 1
                           [CallFindOne "complaints"]))
      by (rewrite Hrun; now destruct (fault_at 0 w)).
    repeat split.
    + unfold response, out. now rewrite Hrun'.
    + exact (calls_world_after _ _ _ _ _ _ _ _ _ Hrun').
    + unfold after, out. now rewrite Hrun'.
    + unfold after, out. now rewrite Hrun'.
  - unfold out. intros Hupd.
    destruct (ObjectIDFromHex complaintId) as [oid | e].
    + destruct (fault_at 0 w) eqn:Hf0.
      * rewrite (calls_world_after _ _ _ _ _ _ _ _ _ Hrun) in Hupd.
        destruct Hupd as [H | []]. discriminate.
      * destruct (find _ (complaints w)) as [c |] eqn:Hfind.
        -- exists oid, c.
           do 3 (split; [first [reflexivity | assumption] |]).
           destruct (fault_at 1 w);
             exact (calls_world_after _ _ _ _ _ _ _ _ _ Hrun).
        -- rewrite (calls_world_after _ _ _ _ _ _ _ _ _ Hrun) in Hupd.
           destruct Hupd as [H | []]. discriminate.
    + rewrite (calls_unchanged _ _ _ Hrun) in Hupd. destruct Hupd.
Qed.

Lemma resolve_atomic_on_error_witness :
  after (resolveComplaintHandler "not-an-id") world_complaint = world_complaint /\
  complaints (after (resolveComplaintHandler "0000000000000000000000ff")
                    world_complaint)
  = complaints world_complaint.
Proof.
  split.
  - destruct (resolve_atomic_on_error world_complaint "not-an-id")
      as (Hbad & _ & _).
    apply (Hbad ErrInvalidHex). reflexivity.
  - destruct (resolve_atomic_on_error world_complaint
                "0000000000000000000000ff") as (_ & Hmiss & _).
    apply (Hmiss 255%N).
    + reflexivity.
    + cbn. intros [H | []]. discriminate.
Defined.

Lemma update_first_idempotent {A : Type} (p : A -> bool) (f : A -> A) (l : list A) :
  (forall b, p (f b) = p b) -> (forall b, f (f b) = f b) ->
  update_first p f (update_first p f l) = update_first p f l.
Proof.
  intros Hp Hf. induction l as [| b l IH]; [reflexivity |].
  cbn [update_first]. destruct (p b) eqn:Hpb; cbn [update_first].
  - now rewrite Hp, Hpb, Hf.
  - now rewrite Hpb, IH.
Qed.

(** C5.  Resolving an existing complaint twice in a row, with no storage
    failure, answers both times with the complaint and [resolved = true];
    the second call is no error, and the stored complaint has
    [resolved = true] after the first call and after the second, which
    changes nothing in the collection. *)
Theorem resolve_idempotent (w : World) (complaintId : string)
    (oid : ObjectID) (c : Complaint) :
  ObjectIDFromHex complaintId = Ok oid ->
  find (match_complaint (CId oid)) (complaints w) = Some c ->
  (forall k, (k < 4)%nat -> fault_at k w = false) ->
  let out := resolveComplaintHandler complaintId in
  let w1 := after out w in
  let w2 := after out w1 in
  response out w = Json (JComplaint (set_cResolved true c)) /\
  response out w1 = Json (JComplaint (set_cResolved true c)) /\
  cResolved (set_cResolved true c) = true /\
  find (match_complaint (CId oid)) (complaints w1) = Some (set_cResolved true c) /\
  find (match_complaint (CId oid)) (complaints w2) = Some (set_cResolved true c) /\
  complaints w2 = complaints w1.
Proof.
  intros Hoid Hfind Hok out w1 w2. subst out.
  set (cs1 := update_first (match_complaint (CId oid)) (set_cResolved true)
                           (complaints w)).
  assert (Hw1 : resolveComplaintHandler complaintId w =
                (Json (JComplaint (set_cResolved true c)),
                 world_after w (users w) cs1 0 0 2
                   [CallFindOne "complaints"; CallUpdateOne "complaints"])).
  { rewrite resolveComplaintHandler_run, Hoid.
    rewrite !Hok by lia. now rewrite Hfind. }
  assert (Hfind1 : find (match_complaint (CId oid)) cs1
                   = Some (set_cResolved true c)).
  { unfold cs1. apply find_update_first; [exact Hfind | reflexivity | reflexivity]. }
  assert (Hcs1 : complaints w1 = cs1).
  { unfold w1, after. rewrite Hw1. reflexivity. }
  assert (Hf1 : forall k, fault_at k w1 = fault_at (2 + k) w).
  { intros k. unfold w1, after. rewrite Hw1. cbn [snd].
    apply fault_at_world_after. }
  assert (Hw2 : resolveComplaintHandler complaintId w1 =
                (Json (JComplaint (set_cResolved true c)),
                 world_after w1 (users w1) cs1 0 0 2
                   [CallFindOne "complaints"; CallUpdateOne "complaints"])).
  { rewrite resolveComplaintHandler_run, Hoid.
    rewrite !Hf1, !Hok by (cbn; lia).
    rewrite Hcs1, Hfind1.
    replace (set_cResolved true (set_cResolved true c))
      with (set_cResolved true c) by reflexivity.
    unfold cs1 at 1.
    rewrite update_first_idempotent; [reflexivity | reflexivity | reflexivity]. }
  assert (Hcs2 : complaints w2 = cs1).
  { unfold w2, after. rewrite Hw2. reflexivity. }
  unfold response. rewrite Hw1, Hw2, Hcs1, Hcs2. cbn [fst].
  repeat split; assumption.
Qed.

Lemma resolve_idempotent_witness :
  response (resolveComplaintHandler sample_id)
           (after (resolveComplaintHandler sample_id) world_complaint)
  = Json (JComplaint (mkComplaint 7%N "T" "s" 3 true 5%N)).
Proof.
  destruct (resolve_idempotent world_complaint sample_id 7%N sample_complaint)
    as (_ & Hsecond & _).
  - reflexivity.
  - reflexivity.
  - intros k Hk. unfold fault_at. cbn [faults world_complaint].
    destruct k as [| k]; [reflexivity | now destruct k].
  - exact Hsecond.
Defined.

(* ===================================================================== *)
(** ** Login and listing *)

Lemma find_user_no_code (code : string) (us : list User) :
  (forall u, In u us -> uSecretCode u <> code) ->
  find (match_user (USecretCode code)) us = None.
Proof.
  intros Hnone. apply find_none_iff. intros u Hu. cbn [match_user].
  apply String.eqb_neq. now apply Hnone.
Qed.

Lemma find_user_first_code (code : string) (pre post : list User) (u : User) :
  uSecretCode u = code ->
  (forall v, In v pre -> uSecretCode v <> code) ->
  find (match_user (USecretCode code)) (pre ++ u :: post) = Some u.
Proof.
  intros Hu Hpre. apply find_first.
  - intros v Hv. cbn [match_user]. apply String.eqb_neq. now apply Hpre.
  - cbn [match_user]. now apply String.eqb_eq.
Qed.

(** C7.  Login looks the user up by exact match on the secret code.  A
    code no stored user carries is answered 404 "User not found".  A code
    some stored user carries is answered, when the lookup does not fail,
    with the first stored user carrying it: that user when it is the only
    one, the earliest when there are several.  In particular a login with
    the code a registration has just issued, which no earlier user
    carries, is answered with exactly the record the registration
    returned. *)
Theorem login_lookup (w : World) (secretCode : string) :
  let out := loginHandler secretCode in
  ((forall u, In u (users w) -> uSecretCode u <> secretCode) ->
   response out w = HttpError "User not found" 404) /\
  (forall pre u post,
     users w = pre ++ u :: post ->
     uSecretCode u = secretCode ->
     (forall v, In v pre -> uSecretCode v <> secretCode) ->
     fault_at 0 w = false ->
     response out w = Json (JUser u)) /\
  (forall body,
     secretCode = next_code w ->
     (forall v, In v (users w) -> uSecretCode v <> secretCode) ->
     ~ In (next_oid w) (map uID (users w)) ->
     fault_at 0 w = false -> fault_at 1 w = false ->
     response (registerHandler (Decoded body)) w
       = Json (JUser (created_user w body)) /\
     response out (after (registerHandler (Decoded body)) w)
       = Json (JUser (created_user w body))).
Proof.
  intros out. subst out. split; [| split].
  - intros Hnone. unfold response. rewrite loginHandler_run.
    rewrite (find_user_no_code _ _ Hnone). cbn [fst].
    now destruct (fault_at 0 w).
  - intros pre u post Husers Hu Hpre Hok. unfold response.
    rewrite loginHandler_run, Hok, Husers.
    now rewrite (find_user_first_code _ _ _ _ Hu Hpre).
  - intros body Hcode Hnone Hfresh Hok0 Hok1.
    apply existsb_user_id in Hfresh.
    assert (Hreg : registerHandler (Decoded body) w =
                   (Json (JUser (created_user w body)),
                    world_after w (users w ++ [created_user w body])
                      (complaints w) 1 (draws_used w) 1 [CallInsertOne "users"])).
    { rewrite registerHandler_run, Hok0. now rewrite Hfresh. }
    unfold response, after. rewrite Hreg. cbn [fst snd]. split; [reflexivity |].
    rewrite loginHandler_run, fault_at_world_after. cbn [Nat.add].
    rewrite Hok1. cbn [fst].
    unfold world_after. cbn [users].
    now rewrite (find_user_first_code secretCode (users w) [] (created_user w body)).
Qed.

Lemma login_lookup_witness :
  response (loginHandler "999999") world_user
  = HttpError "User not found" 404 /\
  response (loginHandler "234567")
           (mkWorld [sample_user; mkUser 6%N "234567" "B" "b@x.com" []] [] [] [] [] [])
  = Json (JUser sample_user).
Proof.
  split.
  - destruct (login_lookup world_user "999999") as (Hnone & _ & _).
    apply Hnone. cbn. intros u [<- | []]. discriminate.
  - destruct (login_lookup
                (mkWorld [sample_user; mkUser 6%N "234567" "B" "b@x.com" []]
                         [] [] [] [] []) "234567") as (_ & Hfirst & _).
    apply (Hfirst [] sample_user [mkUser 6%N "234567" "B" "b@x.com" []]).
    + reflexivity.
    + reflexivity.
    + intros v [].
    + reflexivity.
Defined.



(* ===================================================================== *)
(** ** The resolved flag over runs of requests *)

Lemma set_cResolved_fixed (c : Complaint) :
  cResolved c = true -> set_cResolved true c = c.
Proof. destruct c as [i t s r b u]. cbn. now intros ->. Qed.

Lemma complaint_step_id (c c' : Complaint) :
  complaint_step c c' -> cID c' = cID c.
Proof. now intros [-> | ->]. Qed.

Lemma complaint_step_resolved (c c' : Complaint) :
  complaint_step c c' -> cResolved c = true -> c' = c.
Proof.
  intros [-> | ->] Hres; [reflexivity | now apply set_cResolved_fixed].
Qed.

Lemma complaint_step_trans (c1 c2 c3 : Complaint) :
  complaint_step c1 c2 -> complaint_step c2 c3 -> complaint_step c1 c3.
Proof.
  intros [-> | ->] [-> | ->]; unfold complaint_step; auto.
Qed.

Lemma Forall2_step_refl (cs : list Complaint) : Forall2 complaint_step cs cs.
Proof. induction cs; constructor; [now left | assumption]. Qed.

Lemma Forall2_step_trans (l1 : list Complaint) :
  forall l2 l3,
    Forall2 complaint_step l1 l2 -> Forall2 complaint_step l2 l3 ->
    Forall2 complaint_step l1 l3.
Proof.
  induction l1 as [| c1 l1 IH]; intros l2 l3 H12 H23;
    inversion H12; subst; inversion H23; subst; constructor.
  - eapply complaint_step_trans; eassumption.
  - eapply IH; eassumption.
Qed.

Lemma Forall2_step_update (oid : ObjectID) (cs : list Complaint) :
  Forall2 complaint_step cs
    (update_first (match_complaint (CId oid)) (set_cResolved true) cs).
Proof.
  induction cs as [| c cs IH]; cbn [update_first]; [constructor |].
  destruct (match_complaint (CId oid) c).
  - constructor; [now right | apply Forall2_step_refl].
  - constructor; [now left | exact IH].
Qed.

Lemma evolves_refl (cs : list Complaint) : evolves cs cs.
Proof.
  exists cs, []. split; [now rewrite app_nil_r | apply Forall2_step_refl].
Qed.

Lemma evolves_trans (cs1 cs2 cs3 : list Complaint) :
  evolves cs1 cs2 -> evolves cs2 cs3 -> evolves cs1 cs3.
Proof.
  intros (k1 & a1 & -> & H1) (k2 & a2 & -> & H2).
  apply Forall2_app_inv_l in H2. destruct H2 as (k2a & k2b & Ha & Hb & ->).
  exists k2a, (k2b ++ a2). split; [now rewrite app_assoc |].
  eapply Forall2_step_trans; eassumption.
Qed.

Lemma evolves_insert (cs : list Complaint) (c : Complaint) :
  evolves cs (cs ++ [c]).
Proof. exists cs, [c]. split; [reflexivity | apply Forall2_step_refl]. Qed.

Lemma evolves_update (oid : ObjectID) (cs : list Complaint) :
  evolves cs (update_first (match_complaint (CId oid)) (set_cResolved true) cs).
Proof.
  eexists _, []. split; [now rewrite app_nil_r | apply Forall2_step_update].
Qed.

Lemma evolves_nth (cs cs' : list Complaint) (i : nat) (c : Complaint) :
  evolves cs cs' -> nth_error cs i = Some c -> cResolved c = true ->
  nth_error cs' i = Some c.
Proof.
  intros (kept & added & -> & Hstep) Hnth Hres.
  revert i Hnth. induction Hstep as [| b b' l l' Hb _ IH]; intros i Hnth.
  - now destruct i.
  - destruct i as [| i]; cbn [nth_error app] in *.
    + injection Hnth as ->. now rewrite (complaint_step_resolved _ _ Hb Hres).
    + now apply IH.
Qed.

Lemma evolves_find (cs cs' : list Complaint) (oid : ObjectID) (c : Complaint) :
  evolves cs cs' ->
  find (match_complaint (CId oid)) cs = Some c -> cResolved c = true ->
  find (match_complaint (CId oid)) cs' = Some c.
Proof.
  intros (kept & added & -> & Hstep) Hfind Hres.
  induction Hstep as [| b b' l l' Hb _ IH]; [discriminate |].
  cbn [find app match_complaint] in *.
  rewrite (complaint_step_id _ _ Hb).
  destruct (N.eqb (cID b) oid).
  - injection Hfind as ->. now rewrite (complaint_step_resolved _ _ Hb Hres).
  - now apply IH.
Qed.

(** Every handler leaves the complaints it found in place, with at most
    their [resolved] flag set. *)
Lemma serve_evolves (r : Request) (w : World) :
  evolves (complaints w) (complaints (after (serve r) w)).
Proof.
  unfold after. destruct r as [s | [msg | b] | [msg | b] | s | | s | s];
    cbn [serve]; try apply evolves_refl.
  - rewrite loginHandler_run. apply evolves_refl.
  - rewrite registerHandler_run.
    destruct (fault_at 0 w); [apply evolves_refl |].
    destruct (existsb _ (users w)); apply evolves_refl.
  - rewrite submitComplaintHandler_run. cbv zeta.
    destruct (fault_at 0 w); [apply evolves_refl |].
    destruct (existsb _ (complaints w)); [apply evolves_refl |].
    destruct (fault_at 1 w); [apply evolves_insert |].
    destruct (find _ (users w)); [| apply evolves_insert].
    destruct (fault_at 2 w); apply evolves_insert.
  - rewrite getAllComplaintsForUserHandler_run.
    destruct (fault_at 0 w); [apply evolves_refl |].
    destruct (find _ (users w)); [| apply evolves_refl].
    rewrite listing_complaints. apply evolves_refl.
  - rewrite getAllComplaintsForAdminHandler_run, listing_complaints.
    apply evolves_refl.
  - rewrite viewComplaintHandler_run.
    destruct (ObjectIDFromHex s); apply evolves_refl.
  - rewrite resolveComplaintHandler_run.
    destruct (ObjectIDFromHex s) as [oid | e]; [| apply evolves_refl].
    destruct (fault_at 0 w); [apply evolves_refl |].
    destruct (find _ (complaints w)); [| apply evolves_refl].
    destruct (fault_at 1 w); [apply evolves_refl | apply evolves_update].
Qed.

Lemma after_serve_all_cons (r : Request) (rs : list Request) (w : World) :
  after (serve_all (r :: rs)) w = after (serve_all rs) (after (serve r) w).
Proof.
  unfold after. cbn [serve_all]. unfold bind, ret.
  destruct (serve r w) as [resp w1]. cbn [snd].
  now destruct (serve_all rs w1).
Qed.

Lemma serve_all_evolves (rs : list Request) :
  forall w, evolves (complaints w) (complaints (after (serve_all rs) w)).
Proof.
  induction rs as [| r rs IH]; intros w.
  - apply evolves_refl.
  - rewrite after_serve_all_cons.
    eapply evolves_trans; [apply serve_evolves | apply IH].
Qed.

(** C6.  The [resolved] flag never goes back from true to false: whatever
    requests are served, a stored complaint with [resolved = true] stays
    where it is in the collection, unchanged, and a lookup by its
    identifier that found it still finds it, with [resolved = true]. *)
Theorem resolved_monotonic (rs : list Request) (w : World) (c : Complaint) :
  cResolved c = true ->
  let w' := after (serve_all rs) w in
  (forall i, nth_error (complaints w) i = Some c ->
             nth_error (complaints w') i = Some c) /\
  (forall oid, find (match_complaint (CId oid)) (complaints w) = Some c ->
               find (match_complaint (CId oid)) (complaints w') = Some c).
Proof.
  intros Hres w'. pose proof (serve_all_evolves rs w) as Hev. split.
  - intros i Hnth. exact (evolves_nth _ _ _ _ Hev Hnth Hres).
  - intros oid Hfind. exact (evolves_find _ _ _ _ Hev Hfind Hres).
Qed.

Lemma resolved_monotonic_witness :
  nth_error (complaints (after (serve_all sample_requests) world_resolved)) 0
  = Some (set_cResolved true sample_complaint).
Proof.
  destruct (resolved_monotonic sample_requests world_resolved
              (set_cResolved true sample_complaint)) as (Hnth & _).
  - reflexivity.
  - apply Hnth. reflexivity.
Defined.

(* ===================================================================== *)
(** ** The scenario end to end *)

(** From an empty store: the registration returns the code ["234567"], the
    listing by that code returns the one complaint with [resolved = false],
    and after the resolve the view returns it with [resolved = true]. *)
Example scenario_end_to_end :
  response (serve_all scenario_requests) world_fresh =
  [Json (JUser (mkUser 5%N "234567" "A" "a@x.com" []));
   Json (JComplaint (mkComplaint 7%N "T" "s" 3 false 5%N));
   Json (JComplaints [mkComplaint 7%N "T" "s" 3 false 5%N]);
   Json (JComplaint (mkComplaint 7%N "T" "s" 3 true 5%N));
   Json (JComplaint (mkComplaint 7%N "T" "s" 3 true 5%N))].
Proof. vm_compute. reflexivity. Qed.

(* ===================================================================== *)
(** ** Requests as transitions of the store *)

Lemma map_update_first {A B : Type} (g : A -> B) (p : A -> bool) (f : A -> A)
    (l : list A) :
  (forall a, g (f a) = g a) -> map g (update_first p f l) = map g l.
Proof.
  intros Hg. induction l as [| a l IH]; [reflexivity |].
  cbn [update_first]. destruct (p a); cbn [map]; [now rewrite Hg | now rewrite IH].
Qed.

Lemma length_update_first {A : Type} (p : A -> bool) (f : A -> A) (l : list A) :
  List.length (update_first p f l) = List.length l.
Proof.
  induction l as [| a l IH]; [reflexivity |].
  cbn [update_first]. destruct (p a); cbn [List.length]; [reflexivity | now rewrite IH].
Qed.

(** [UpdateOne] changes the document [FindOne] returns for the same
    filter, and no other. *)
Lemma update_first_split {A : Type} (p : A -> bool) (f : A -> A) (l : list A) (a : A) :
  find p l = Some a ->
  exists pre post,
    l = pre ++ a :: post /\
    (forall b, In b pre -> p b = false) /\
    update_first p f l = pre ++ f a :: post.
Proof.
  induction l as [| b l IH]; [discriminate |].
  cbn [find update_first]. destruct (p b) eqn:Hpb.
  - intros [= ->]. exists [], l. repeat split. intros b [].
  - intros Hfind. destruct (IH Hfind) as (pre & post & -> & Hpre & Hupd).
    exists (b :: pre), post. cbn [app]. rewrite Hupd. repeat split.
    intros b' [<- | Hb']; [exact Hpb | now apply Hpre].
Qed.

Lemma update_first_none {A : Type} (p : A -> bool) (f : A -> A) (l : list A) :
  find p l = None -> update_first p f l = l.
Proof.
  induction l as [| b l IH]; [reflexivity |].
  cbn [find update_first]. destruct (p b); [discriminate |].
  intros Hfind. now rewrite IH.
Qed.

Lemma find_user_id (id : ObjectID) (us : list User) (u : User) :
  find (match_user (UId id)) us = Some u -> In u us /\ uID u = id.
Proof.
  intros Hfind. apply find_some in Hfind. destruct Hfind as [Hin Hm].
  cbn [match_user] in Hm. apply N.eqb_eq in Hm. now split.
Qed.

Lemma NoDup_snoc {A : Type} (l : list A) (a : A) :
  NoDup l -> ~ In a l -> NoDup (l ++ [a]).
Proof.
  intros Hl Ha. induction Hl as [| b l Hb Hl IH]; cbn [app].
  - constructor; [intros [] | constructor].
  - constructor.
    + rewrite in_app_iff. intros [H | [<- | []]]; [contradiction |].
      apply Ha. now left.
    + apply IH. intros H. apply Ha. now right.
Qed.

(** Each request is one of the transitions. *)
Lemma serve_transition (r : Request) (w : World) :
  transition w (after (serve r) w).
Proof.
  unfold after.
  destruct r as [s | [msg | b] | [msg | b] | s | | s | s]; cbn [serve].
  - rewrite loginHandler_run. now apply tr_none.
  - now apply tr_none.
  - rewrite registerHandler_run.
    destruct (fault_at 0 w); [now apply tr_none |].
    destruct (existsb _ (users w)) eqn:Hdup; [now apply tr_none |].
    apply existsb_user_id in Hdup. now apply (tr_register _ _ b).
  - now apply tr_none.
  - rewrite submitComplaintHandler_run. cbv zeta.
    destruct (fault_at 0 w); [now apply tr_none |].
    destruct (existsb _ (complaints w)) eqn:Hdup; [now apply tr_none |].
    apply existsb_complaint_id in Hdup.
    destruct (fault_at 1 w); [now apply (tr_submit _ _ b) |].
    destruct (find _ (users w)) as [user |] eqn:Huser;
      [| now apply (tr_submit _ _ b)].
    destruct (fault_at 2 w);
      [now apply (tr_submit _ _ b) | now apply (tr_submit_linked _ _ b user)].
  - rewrite getAllComplaintsForUserHandler_run.
    destruct (fault_at 0 w); [now apply tr_none |].
    destruct (find _ (users w)); [| now apply tr_none].
    apply tr_none; [now rewrite listing_users | now rewrite listing_complaints].
  - rewrite getAllComplaintsForAdminHandler_run.
    apply tr_none; [apply listing_users | apply listing_complaints].
  - rewrite viewComplaintHandler_run.
    destruct (ObjectIDFromHex s); now apply tr_none.
  - rewrite resolveComplaintHandler_run.
    destruct (ObjectIDFromHex s) as [oid | e]; [| now apply tr_none].
    destruct (fault_at 0 w); [now apply tr_none |].
    destruct (find _ (complaints w)) as [c |] eqn:Hfind; [| now apply tr_none].
    destruct (fault_at 1 w); [now apply tr_none | now apply (tr_resolve _ _ oid c)].
Qed.

(** What every transition keeps, every run of requests keeps. *)
Lemma serve_all_invariant (P : World -> Prop) :
  (forall w w', transition w w' -> P w -> P w') ->
  forall rs w, P w -> P (after (serve_all rs) w).
Proof.
  intros Hstep rs. induction rs as [| r rs IH]; intros w Hw.
  - exact Hw.
  - rewrite after_serve_all_cons. apply IH.
    exact (Hstep _ _ (serve_transition r w) Hw).
Qed.

(* ===================================================================== *)
(** ** Error answers and read-only requests *)

(** X1.  A request answered with an error has written nothing: whatever
    the handler and whatever the status (400, 404 or 500), both
    collections are as they were before the request. *)
Theorem error_response_writes_nothing (r : Request) (w : World)
    (msg : string) (code : Z) :
  response (serve r) w = HttpError msg code ->
  users (after (serve r) w) = users w /\
  complaints (after (serve r) w) = complaints w.
Proof.
  unfold response, after.
  destruct r as [s | [m | b] | [m | b] | s | | s | s]; cbn [serve].
  - rewrite loginHandler_run. now intros _.
  - now intros _.
  - rewrite registerHandler_run.
    destruct (fault_at 0 w); [now intros _ |].
    destruct (existsb _ (users w)); [now intros _ | discriminate].
  - now intros _.
  - rewrite submitComplaintHandler_run. cbv zeta.
    destruct (fault_at 0 w); [now intros _ |].
    destruct (existsb _ (complaints w)); [now intros _ |].
    destruct (fault_at 1 w); [discriminate |].
    destruct (find _ (users w)); [| discriminate].
    destruct (fault_at 2 w); discriminate.
  - rewrite getAllComplaintsForUserHandler_run.
    destruct (fault_at 0 w); [now intros _ |].
    destruct (find _ (users w)); [| now intros _].
    intros _. now rewrite listing_users, listing_complaints.
  - rewrite getAllComplaintsForAdminHandler_run.
    intros _. now rewrite listing_users, listing_complaints.
  - rewrite viewComplaintHandler_run.
    destruct (ObjectIDFromHex s); now intros _.
  - rewrite resolveComplaintHandler_run.
    destruct (ObjectIDFromHex s) as [oid | e]; [| now intros _].
    destruct (fault_at 0 w); [now intros _ |].
    destruct (find _ (complaints w)); [| now intros _].
    destruct (fault_at 1 w); [now intros _ | discriminate].
Qed.

Lemma error_response_writes_nothing_witness :
  complaints (after (serve (POST_resolveComplaint sample_id)) world_update_fails)
  = [sample_complaint].
Proof.
  apply (error_response_writes_nothing (POST_resolveComplaint sample_id)
           world_update_fails (Error ErrDriver) StatusInternalServerError).
  reflexivity.
Defined.

(** X2.  The four GET handlers only read: they leave both collections
    untouched, draw no identifier and no random number, and every storage
    call they issue is a read: a [FindOne], a [Find], or a cursor's fetch
    of a further batch. *)
Theorem read_only_requests (r : Request) (w : World) :
  read_only r = true ->
  let w' := after (serve r) w in
  users w' = users w /\ complaints w' = complaints w /\
  oids w' = oids w /\ rands w' = rands w /\
  forallb is_read (calls (serve r) w) = true.
Proof.
  intros Hro w'. subst w'. unfold calls, after.
  destruct r as [s | b | b | s | | s | s]; try discriminate; cbn [serve].
  - rewrite loginHandler_run. unfold world_after.
    cbn [snd users complaints oids rands trace skipn].
    now rewrite skipn_app_length.
  - rewrite getAllComplaintsForUserHandler_run.
    destruct (fault_at 0 w);
      [| destruct (find _ (users w))];
      try (unfold world_after; cbn [snd users complaints oids rands trace skipn];
           now rewrite skipn_app_length).
    match goal with
    | |- context [listing ?f ?w1] =>
        destruct (listing_read_only f w1) as (Hu & Hc & Ho & Hr & cl & Ht & Hcl)
    end.
    rewrite Hu, Hc, Ho, Hr, Ht. unfold world_after.
    cbn [users complaints oids rands trace skipn].
    rewrite <- app_assoc, skipn_app_length. now repeat split.
  - rewrite getAllComplaintsForAdminHandler_run.
    destruct (listing_read_only CAll w) as (Hu & Hc & Ho & Hr & cl & Ht & Hcl).
    rewrite Hu, Hc, Ho, Hr, Ht, skipn_app_length. now repeat split.
  - rewrite viewComplaintHandler_run.
    destruct (ObjectIDFromHex s).
    + unfold world_after. cbn [snd users complaints oids rands trace skipn].
      now rewrite skipn_app_length.
    + cbn [snd]. now rewrite skipn_all.
Qed.

Lemma read_only_requests_witness :
  users (after (serve (GET_getAllComplaintsForUser "234567")) world_complaint)
  = users world_complaint.
Proof.
  apply (read_only_requests (GET_getAllComplaintsForUser "234567") world_complaint).
  reflexivity.
Defined.

Lemma filter_all (cs : list Complaint) : filter (match_complaint CAll) cs = cs.
Proof.
  induction cs as [| c cs IH]; cbn [filter match_complaint];
    [reflexivity | now rewrite IH].
Qed.

(** X3.  The admin listing is unfiltered but can be cut short.  When the
    [Find] call fails it answers 500, having issued that one call.  When
    no storage call and no decode fails it answers with every stored
    complaint, in stored order.  Whatever list it answers is the stored
    complaints from the first up to some point.  And when more than a
    first batch of 101 is stored, [Find] succeeds, the first 101 decode
    and the fetch of the second batch (the second storage call) fails, it
    still answers 200, with the first 101 alone: the loop is left on the
    failed [cursor.Next] and [cursor.Err()] is not read. *)
Theorem admin_lists_every_complaint (w : World) :
  let out := getAllComplaintsForAdminHandler in
  (fault_at 0 w = true ->
   response out w = HttpError (Error ErrDriver) StatusInternalServerError /\
   calls out w = [CallFind "complaints"]) /\
  (no_failure w -> response out w = Json (JComplaints (complaints w))) /\
  (forall l, response out w = Json (JComplaints l) ->
     exists rest, complaints w = l ++ rest) /\
  ((firstBatch < List.length (complaints w))%nat ->
   fault_at 0 w = false ->
   fault_at 1 w = true ->
   (forall k, (k < firstBatch)%nat -> decode_fails_at k w = false) ->
   response out w = Json (JComplaints (firstn firstBatch (complaints w)))).
Proof.
  intros out. subst out. rewrite getAllComplaintsForAdminHandler_run.
  split; [| split; [| split]].
  - intros Hbad. pose proof (listing_unfold CAll w) as Hrun.
    rewrite Hbad in Hrun. split.
    + unfold response. now rewrite Hrun.
    + exact (calls_world_after _ _ _ _ _ _ _ _ _ Hrun).
  - intros Hw. rewrite (listing_no_failure CAll w Hw). now rewrite filter_all.
  - intros l Hl.
    destruct (listing_spec CAll w) as ([Herr | (l' & rest & Hl' & Hpre)] & _).
    + rewrite Herr in Hl. discriminate.
    + rewrite Hl' in Hl. injection Hl as <-. exists rest.
      now rewrite filter_all in Hpre.
  - intros Hmany Hfind Hbad Hdec.
    pose proof (firstn_skipn firstBatch (complaints w)) as Hsplit.
    destruct (skipn firstBatch (complaints w)) as [| doc post] eqn:Hrest.
    + apply (f_equal (@List.length Complaint)) in Hrest.
      rewrite length_skipn in Hrest. cbn [List.length] in Hrest. lia.
    + apply (listing_truncated CAll w _ post doc); try assumption.
      * now rewrite filter_all.
      * rewrite length_firstn. lia.
Qed.

Lemma admin_lists_every_complaint_witness :
  response getAllComplaintsForAdminHandler world_resolved
  = Json (JComplaints [set_cResolved true sample_complaint]) /\
  response getAllComplaintsForAdminHandler world_two_batches
  = Json (JComplaints (firstn 101 (complaints world_two_batches))).
Proof.
  split.
  - destruct (admin_lists_every_complaint world_resolved) as (_ & Hall & _).
    apply Hall. apply no_failure_mkWorld.
  - destruct (admin_lists_every_complaint world_two_batches) as (_ & _ & _ & Hcut).
    apply Hcut.
    + vm_compute. lia.
    + reflexivity.
    + reflexivity.
    + intros k _. now destruct k.
Defined.

(* ===================================================================== *)
(** ** Invariants of the store *)

Lemma transition_ids_unique (w w' : World) :
  transition w w' -> ids_unique w -> ids_unique w'.
Proof.
  intros Ht [Hu Hc]. unfold ids_unique.
  destruct Ht as [-> -> | body Hfresh -> -> | body Hfresh -> ->
                  | body user Hfresh Hfind -> -> | oid c Hfind -> ->].
  - now split.
  - split; [| exact Hc]. rewrite map_app. cbn [map created_user uID].
    now apply NoDup_snoc.
  - split; [exact Hu |]. rewrite map_app. cbn [map created_complaint cID].
    now apply NoDup_snoc.
  - split.
    + now rewrite map_update_first.
    + rewrite map_app. cbn [map created_complaint cID]. now apply NoDup_snoc.
  - split; [exact Hu |]. now rewrite map_update_first.
Qed.

(** X4.  Identifiers stay unique: when no two stored users share an
    identifier and no two stored complaints do, the same holds after any
    run of requests. *)
Theorem ids_stay_unique (rs : list Request) (w : World) :
  ids_unique w -> ids_unique (after (serve_all rs) w).
Proof. apply serve_all_invariant. exact transition_ids_unique. Qed.

Lemma ids_stay_unique_witness :
  ids_unique (after (serve_all scenario_requests) world_fresh).
Proof.
  apply (ids_stay_unique scenario_requests world_fresh).
  split; constructor.
Defined.

Lemma user_step_refl (u : User) : user_step u u.
Proof. exists []. destruct u. cbn. now rewrite app_nil_r. Qed.

Lemma user_step_trans (u1 u2 u3 : User) :
  user_step u1 u2 -> user_step u2 u3 -> user_step u1 u3.
Proof.
  intros [m1 ->] [m2 ->]. exists (m1 ++ m2). cbn. now rewrite app_assoc.
Qed.

Lemma Forall2_user_refl (us : list User) : Forall2 user_step us us.
Proof. induction us; constructor; [apply user_step_refl | assumption]. Qed.

Lemma Forall2_user_trans (l1 : list User) :
  forall l2 l3,
    Forall2 user_step l1 l2 -> Forall2 user_step l2 l3 -> Forall2 user_step l1 l3.
Proof.
  induction l1 as [| u1 l1 IH]; intros l2 l3 H12 H23;
    inversion H12; subst; inversion H23; subst; constructor.
  - eapply user_step_trans; eassumption.
  - eapply IH; eassumption.
Qed.

Lemma users_evolve_trans (us1 us2 us3 : list User) :
  users_evolve us1 us2 -> users_evolve us2 us3 -> users_evolve us1 us3.
Proof.
  intros (k1 & a1 & -> & H1) (k2 & a2 & -> & H2).
  apply Forall2_app_inv_l in H2. destruct H2 as (k2a & k2b & Ha & Hb & ->).
  exists k2a, (k2b ++ a2). split; [now rewrite app_assoc |].
  eapply Forall2_user_trans; eassumption.
Qed.

(** The update of [submitComplaintHandler] extends the list of the user
    the lookup returned and leaves the other users alone. *)
Lemma Forall2_user_update (id : ObjectID) (k : ObjectID) (us : list User) (user : User) :
  find (match_user (UId id)) us = Some user ->
  Forall2 user_step us
    (update_first (match_user (UId id))
                  (set_uComplaints (uComplaints user ++ [k])) us).
Proof.
  induction us as [| u us IH]; [discriminate |].
  cbn [find update_first]. destruct (match_user (UId id) u).
  - intros [= ->]. constructor; [now exists [k] | apply Forall2_user_refl].
  - intros Hfind. constructor; [apply user_step_refl | now apply IH].
Qed.

Lemma transition_users_evolve (w w' : World) :
  transition w w' -> users_evolve (users w) (users w').
Proof.
  intros [-> _ | body _ -> _ | body _ -> _ | body user _ Hfind -> _ | oid c _ -> _].
  - exists (users w), []. split; [now rewrite app_nil_r | apply Forall2_user_refl].
  - eexists (users w), [_]. split; [reflexivity | apply Forall2_user_refl].
  - exists (users w), []. split; [now rewrite app_nil_r | apply Forall2_user_refl].
  - eexists _, []. split; [now rewrite app_nil_r |].
    destruct (find_user_id _ _ _ Hfind) as [_ ->].
    now apply Forall2_user_update.
  - exists (users w), []. split; [now rewrite app_nil_r | apply Forall2_user_refl].
Qed.

Lemma serve_all_users_evolve (rs : list Request) (w : World) :
  users_evolve (users w) (users (after (serve_all rs) w)).
Proof.
  apply (serve_all_invariant (fun w' => users_evolve (users w) (users w'))).
  - intros w1 w2 Ht H1. eapply users_evolve_trans; [exact H1 |].
    now apply transition_users_evolve.
  - exists (users w), []. split; [now rewrite app_nil_r | apply Forall2_user_refl].
Qed.

(** X5.  When requests are served one at a time, no handler interleaved
    with another, users are never deleted, moved or rewritten: after any
    such run a stored user is still at its place with the same
    identifier, secret code, name and email, and its complaint list is
    the old list with identifiers added at the end.  (Two submissions
    whose lookups and updates interleave are outside [serve_all]; there
    the later update can write a list read before the earlier one.) *)
Theorem users_append_only (rs : list Request) (w : World) (i : nat) (u : User) :
  nth_error (users w) i = Some u ->
  exists more,
    nth_error (users (after (serve_all rs) w)) i
    = Some (mkUser (uID u) (uSecretCode u) (uName u) (uEmail u)
                   (uComplaints u ++ more)).
Proof.
  intros Hnth.
  destruct (serve_all_users_evolve rs w) as (kept & added & -> & Hstep).
  revert i Hnth. induction Hstep as [| b b' l l' Hb _ IH]; intros i Hnth.
  - now destruct i.
  - destruct i as [| i]; cbn [nth_error app] in *.
    + injection Hnth as ->. destruct Hb as [more ->]. now exists more.
    + now apply IH.
Qed.

Lemma users_append_only_witness :
  exists more,
    nth_error (users (after (serve_all sample_requests) world_resolved)) 0
    = Some (mkUser 5%N "234567" "A" "a@x.com" ([7%N] ++ more)).
Proof.
  apply (users_append_only sample_requests world_resolved 0
           (set_uComplaints [7%N] sample_user)).
  reflexivity.
Defined.

(** X6.  Complaints are never deleted, moved or edited: after any run of
    requests a stored complaint is still at its place with the same
    identifier, title, summary, rating and owner; only its [resolved]
    flag may differ, and only by having become true. *)
Theorem complaints_keep_their_fields (rs : list Request) (w : World)
    (i : nat) (c : Complaint) :
  nth_error (complaints w) i = Some c ->
  exists resolved,
    nth_error (complaints (after (serve_all rs) w)) i
    = Some (mkComplaint (cID c) (cTitle c) (cSummary c) (cRating c) resolved
                        (cUserID c)) /\
    (resolved = cResolved c \/ resolved = true).
Proof.
  intros Hnth.
  destruct (serve_all_evolves rs w) as (kept & added & -> & Hstep).
  revert i Hnth. induction Hstep as [| b b' l l' Hb _ IH]; intros i Hnth.
  - now destruct i.
  - destruct i as [| i]; cbn [nth_error app] in *.
    + injection Hnth as ->. destruct Hb as [-> | ->].
      * exists (cResolved c). split; [now destruct c | now left].
      * exists true. split; [reflexivity | now right].
    + now apply IH.
Qed.

Lemma complaints_keep_their_fields_witness :
  exists resolved,
    nth_error (complaints (after (serve_all sample_requests) world_complaint)) 0
    = Some (mkComplaint 7%N "T" "s" 3 resolved 5%N) /\
    (resolved = false \/ resolved = true).
Proof.
  apply (complaints_keep_their_fields sample_requests world_complaint 0
           sample_complaint).
  reflexivity.
Defined.

Lemma Forall_update_first {A : Type} (P : A -> Prop) (p : A -> bool) (f : A -> A)
    (l : list A) :
  (forall a, P a -> P (f a)) -> Forall P l -> Forall P (update_first p f l).
Proof.
  intros Hf Hl. induction Hl as [| a l Ha Hl IH]; cbn [update_first];
    [constructor |].
  destruct (p a); constructor; auto.
Qed.

Lemma transition_codes_well_formed (w w' : World) :
  transition w w' -> codes_well_formed w -> codes_well_formed w'.
Proof.
  unfold codes_well_formed.
  intros [-> _ | body _ -> _ | body _ -> _ | body user _ _ -> _ | oid c _ -> _] Hw;
    try assumption.
  - apply Forall_app. split; [exact Hw |].
    constructor; [| constructor]. apply next_code_six_digits.
  - now apply Forall_update_first.
Qed.

(** X7.  Every stored secret code is six decimal digits, and stays so
    over any run of requests; in such a store a login or a listing with
    a code that is not six digits (an absent [secretCode] parameter reads
    as the empty string) is always answered 404. *)
Theorem codes_stay_well_formed (rs : list Request) (w : World) (secretCode : string) :
  codes_well_formed w ->
  let w' := after (serve_all rs) w in
  codes_well_formed w' /\
  (six_digits secretCode = false ->
   response (loginHandler secretCode) w'
   = HttpError "User not found" StatusNotFound /\
   response (getAllComplaintsForUserHandler secretCode) w'
   = HttpError "User not found" StatusNotFound).
Proof.
  intros Hw w'.
  assert (Hw' : codes_well_formed w')
    by (apply serve_all_invariant; [exact transition_codes_well_formed | exact Hw]).
  split; [exact Hw' |]. intros Hbad.
  assert (Hnone : find (match_user (USecretCode secretCode)) (users w') = None).
  { apply find_user_no_code. intros u Hu Hcode.
    unfold codes_well_formed in Hw'. rewrite Forall_forall in Hw'.
    specialize (Hw' u Hu). congruence. }
  unfold response.
  rewrite loginHandler_run, getAllComplaintsForUserHandler_run, Hnone.
  split; now destruct (fault_at 0 w').
Qed.

Lemma codes_stay_well_formed_witness :
  response (loginHandler "")
           (after (serve_all scenario_requests) world_fresh)
  = HttpError "User not found" StatusNotFound.
Proof.
  destruct (codes_stay_well_formed scenario_requests world_fresh "")
    as (_ & Hbad).
  - constructor.
  - now apply Hbad.
Defined.

Lemma In_update_first {A : Type} (p : A -> bool) (f : A -> A) (l : list A) (b : A) :
  In b (update_first p f l) ->
  In b l \/ exists a, find p l = Some a /\ b = f a.
Proof.
  induction l as [| a l IH]; cbn [update_first find]; [intros [] |].
  destruct (p a).
  - intros [<- | Hb]; [right; now exists a | left; now right].
  - intros [<- | Hb]; [left; now left |].
    destruct (IH Hb) as [H | H]; [left; now right | now right].
Qed.

Lemma update_first_keeps {A : Type} (p : A -> bool) (f : A -> A) (l : list A) (a : A) :
  In a l -> In a (update_first p f l) \/ In (f a) (update_first p f l).
Proof.
  induction l as [| b l IH]; cbn [update_first]; [intros [] |].
  destruct (p b).
  - intros [-> | Ha]; [right; now left | left; now right].
  - intros [-> | Ha]; [left; now left |].
    destruct (IH Ha) as [H | H]; [left | right]; now right.
Qed.

Lemma transition_refs_sound (w w' : World) :
  transition w w' -> refs_sound w -> refs_sound w'.
Proof.
  unfold refs_sound.
  intros [Hu Hc | body _ Hu Hc | body _ Hu Hc | body user _ Hfind Hu Hc
          | oid c0 _ Hu Hc] Hw u k; rewrite Hu, Hc.
  - apply Hw.
  - rewrite in_app_iff. intros [Hin | [<- | []]]; [now apply Hw | intros []].
  - intros Hin Hk. destruct (Hw u k Hin Hk) as (c & Hcin & Hid & Hown).
    exists c. rewrite in_app_iff. auto.
  - intros Hin Hk. apply In_update_first in Hin.
    destruct Hin as [Hin | (a & Ha & ->)].
    + destruct (Hw u k Hin Hk) as (c & Hcin & Hid & Hown).
      exists c. rewrite in_app_iff. auto.
    + destruct (find_user_id _ _ _ Hfind) as [Huser Hid].
      assert (a = user).
      { rewrite <- Hid in Hfind. congruence. }
      subst a. cbn [set_uComplaints uComplaints uID] in *.
      apply in_app_iff in Hk. destruct Hk as [Hk | [<- | []]].
      * destruct (Hw user k Huser Hk) as (c & Hcin & Hcid & Hown).
        exists c. rewrite in_app_iff. auto.
      * exists (created_complaint w body). rewrite in_app_iff.
        split; [right; now left | now split].
  - intros Hin Hk. destruct (Hw u k Hin Hk) as (c & Hcin & Hid & Hown).
    destruct (update_first_keeps (match_complaint (CId oid)) (set_cResolved true)
                _ _ Hcin) as [H | H].
    + now exists c.
    + now exists (set_cResolved true c).
Qed.

(** X8.  Back-references never dangle: if every identifier in every
    user's complaint list is that of a stored complaint owned by that
    user, the same holds after any run of requests. *)
Theorem back_references_stay_sound (rs : list Request) (w : World) :
  refs_sound w -> refs_sound (after (serve_all rs) w).
Proof. apply serve_all_invariant. exact transition_refs_sound. Qed.

Lemma back_references_stay_sound_witness :
  refs_sound (after (serve_all scenario_requests) world_fresh).
Proof.
  apply (back_references_stay_sound scenario_requests world_fresh).
  intros u k [].
Defined.

(* ===================================================================== *)
(** ** What the lookups can answer *)

(** X9.  Login never answers with anything but a stored user carrying
    exactly the supplied code, or 404 "User not found": a failure of the
    lookup is reported as 404 too, never as 500. *)
Theorem login_answers_only_with_a_carrier (w : World) (secretCode : string) :
  response (loginHandler secretCode) w = HttpError "User not found" StatusNotFound \/
  exists u, response (loginHandler secretCode) w = Json (JUser u) /\
            In u (users w) /\ uSecretCode u = secretCode.
Proof.
  unfold response. rewrite loginHandler_run. cbn [fst].
  destruct (fault_at 0 w); [now left |].
  destruct (find _ (users w)) as [u |] eqn:Hfind; [| now left].
  right. exists u. apply find_some in Hfind. destruct Hfind as [Hin Hm].
  cbn [match_user] in Hm. apply String.eqb_eq in Hm. now repeat split.
Qed.

(** X10.  A view is answered 400, 404, or with a stored complaint whose
    identifier is the one [complaintId] parses to; it is never answered
    500, and never with a complaint of another identifier. *)
Theorem view_answers_only_with_the_complaint (w : World) (complaintId : string) :
  response (viewComplaintHandler complaintId) w
  = HttpError "Invalid complaint ID" StatusBadRequest \/
  response (viewComplaintHandler complaintId) w
  = HttpError "Complaint not found" StatusNotFound \/
  exists c, response (viewComplaintHandler complaintId) w = Json (JComplaint c) /\
            In c (complaints w) /\ ObjectIDFromHex complaintId = Ok (cID c).
Proof.
  unfold response. rewrite viewComplaintHandler_run.
  destruct (ObjectIDFromHex complaintId) as [oid | e]; [| now left].
  cbn [fst]. destruct (fault_at 0 w); [right; now left |].
  destruct (find _ (complaints w)) as [c |] eqn:Hfind; [| right; now left].
  right. right. exists c. apply find_some in Hfind. destruct Hfind as [Hin Hm].
  cbn [match_complaint] in Hm. apply N.eqb_eq in Hm. subst oid. now repeat split.
Qed.

Lemma find_app_l {A : Type} (p : A -> bool) (l r : list A) (a : A) :
  find p l = Some a -> find p (l ++ r) = Some a.
Proof.
  induction l as [| b l IH]; [discriminate |].
  cbn [find app]. destruct (p b); [trivial | exact IH].
Qed.

(** X11.  Registration does not check the code it draws against the
    stored ones.  When the drawn code is already carried by a stored
    user, the registration still succeeds and returns that code; a login
    with it is then answered with the earlier user, not the new one. *)
Theorem registration_ignores_code_collisions (w : World) (body : User) (earlier : User) :
  find (match_user (USecretCode (next_code w))) (users w) = Some earlier ->
  ~ In (next_oid w) (map uID (users w)) ->
  fault_at 0 w = false -> fault_at 1 w = false ->
  response (registerHandler (Decoded body)) w = Json (JUser (created_user w body)) /\
  uSecretCode (created_user w body) = uSecretCode earlier /\
  response (loginHandler (next_code w)) (after (registerHandler (Decoded body)) w)
  = Json (JUser earlier) /\
  earlier <> created_user w body.
Proof.
  intros Hfind Hfresh Hok0 Hok1.
  pose proof (find_some _ _ Hfind) as [Hin Hcode].
  cbn [match_user] in Hcode. apply String.eqb_eq in Hcode.
  assert (Hreg : registerHandler (Decoded body) w =
                 (Json (JUser (created_user w body)),
                  world_after w (users w ++ [created_user w body])
                    (complaints w) 1 (draws_used w) 1 [CallInsertOne "users"])).
  { rewrite registerHandler_run, Hok0.
    apply existsb_user_id in Hfresh. now rewrite Hfresh. }
  unfold response, after. rewrite Hreg. cbn [fst snd]. repeat split.
  - now rewrite Hcode.
  - rewrite loginHandler_run, fault_at_world_after. cbn [Nat.add].
    rewrite Hok1. cbn [fst]. unfold world_after. cbn [users].
    now rewrite (find_app_l _ _ _ _ Hfind).
  - intros ->. apply Hfresh. now apply (in_map uID) in Hin.
Qed.

Lemma registration_ignores_code_collisions_witness :
  response (loginHandler "234567")
           (after (registerHandler (Decoded forged_user)) world_collision)
  = Json (JUser sample_user).
Proof.
  destruct (registration_ignores_code_collisions world_collision forged_user
              sample_user) as (_ & _ & Hlogin & _).
  - reflexivity.
  - cbn. intros [H | []]. discriminate.
  - reflexivity.
  - reflexivity.
  - exact Hlogin.
Defined.

Lemma Int31n_retry_accepts (max v : Z) (tape : list Z) :
  v <= max -> Int31n_retry max v tape = (v, tape).
Proof.
  intros Hv. assert (Hgt : (v >? max) = false)
    by (rewrite Z.gtb_ltb; apply Z.ltb_ge; lia).
  destruct tape; cbn [Int31n_retry]; now rewrite Hgt.
Qed.

(** A value of [r.Int31()] up to 2146999999 is taken, reduced modulo a
    million. *)
Lemma Int31n_accepts (tape : list Z) :
  0 <= hd 0 tape <= 2146999999 ->
  Int31n 1000000 tape = (hd 0 tape mod 1000000, tl tape).
Proof.
  intros Hv. unfold Int31n.
  change (Z.land 1000000 (1000000 - 1) =? 0) with false.
  change (2147483648 - 1 - 2147483648 mod 1000000) with 2146999999.
  cbv zeta. cbn [Int31 fst snd].
  rewrite (Z.mod_small (hd 0 tape)) by lia.
  now rewrite Int31n_retry_accepts by lia.
Qed.

(** A value above it is dropped and the next one is tried. *)
Lemma Int31n_rejects (v : Z) (tape : list Z) :
  2146999999 < v < 2147483648 ->
  Int31n 1000000 (v :: tape) = Int31n 1000000 tape.
Proof.
  intros Hv. unfold Int31n.
  change (Z.land 1000000 (1000000 - 1) =? 0) with false.
  change (2147483648 - 1 - 2147483648 mod 1000000) with 2146999999.
  cbv zeta. cbn [Int31 fst snd hd tl].
  rewrite (Z.mod_small v) by lia.
  assert (Hgt : (v >? 2146999999) = true) by (apply Z.gtb_lt; lia).
  destruct tape as [| x tape]; cbn [Int31n_retry hd tl]; rewrite Hgt.
  - reflexivity.
  - reflexivity.
Qed.

(** X12.  The secret code spells the number [rand.Intn] returned: two
    calls of [generateSecretCode] return the same code exactly when
    [Intn] returned the same number.  That number is the first value of
    [r.Int31()] not above 2146999999, reduced modulo 1000000: a first
    value in that range gives its residue as the code, and a first value
    above it is skipped, the code being the one the rest of the values
    give. *)
Theorem secret_codes_differ_with_draws (w1 w2 : World) :
  (response generateSecretCode w1 = response generateSecretCode w2 <->
   response (rand_Intn 1000000) w1 = response (rand_Intn 1000000) w2) /\
  (0 <= hd 0 (rands w1) <= 2146999999 ->
   response generateSecretCode w1 = Sprintf_06d (hd 0 (rands w1) mod 1000000)) /\
  (forall v, rands w1 = v :: rands w2 -> 2146999999 < v < 2147483648 ->
   response generateSecretCode w1 = response generateSecretCode w2).
Proof.
  assert (Hgen : forall w, response generateSecretCode w = next_code w)
    by (intros w; destruct w; reflexivity).
  assert (Hintn : forall w, response (rand_Intn 1000000) w = next_draw w)
    by (intros w; destruct w; reflexivity).
  rewrite (Hgen w1), (Hgen w2), (Hintn w1), (Hintn w2). split; [| split].
  - split.
    + intros Hcode.
      rewrite <- (proj2 (next_code_six_digits w1)).
      rewrite <- (proj2 (next_code_six_digits w2)). now rewrite Hcode.
    + intros Hdraw. unfold next_code. now rewrite Hdraw.
  - intros Hv. unfold next_code, next_draw. now rewrite Int31n_accepts.
  - intros v Htape Hv. unfold next_code, next_draw.
    now rewrite Htape, Int31n_rejects.
Qed.

Lemma secret_codes_differ_with_draws_witness :
  response generateSecretCode world_fresh
  = response generateSecretCode world_collision /\
  response generateSecretCode world_fresh = "234567"%string.
Proof.
  destruct (secret_codes_differ_with_draws world_fresh world_collision)
    as (Hiff & Haccept & _).
  split.
  - apply Hiff. reflexivity.
  - apply Haccept. cbn. lia.
Defined.

(* ===================================================================== *)
(** ** How the operations compose *)

Lemma find_update_first_cases {A : Type} (p q : A -> bool) (f : A -> A)
    (l : list A) (a : A) :
  (forall b, q (f b) = q b) ->
  find q l = Some a ->
  find q (update_first p f l) = Some a \/ find q (update_first p f l) = Some (f a).
Proof.
  intros Hq. induction l as [| b l IH]; [discriminate |].
  cbn [find update_first]. destruct (p b); cbn [find].
  - rewrite Hq. destruct (q b); [intros [= ->]; now right | now left].
  - destruct (q b); [now left | exact IH].
Qed.

(** The world a successful submission leaves: the complaint at the end of
    the collection, and users that differ from the stored ones at most by
    their complaint lists. *)
Lemma submit_leaves (w : World) (body : Complaint) :
  fault_at 0 w = false ->
  ~ In (next_oid w) (map cID (complaints w)) ->
  let w' := after (submitComplaintHandler (Decoded body)) w in
  complaints w' = complaints w ++ [created_complaint w body] /\
  (users w' = users w \/
   exists user,
     users w' = update_first (match_user (UId (uID user)))
                  (set_uComplaints (uComplaints user ++ [next_oid w])) (users w)).
Proof.
  intros Hok Hfresh w'. subst w'. apply existsb_complaint_id in Hfresh.
  unfold after. rewrite submitComplaintHandler_run. cbv zeta.
  rewrite Hok, Hfresh.
  destruct (fault_at 1 w); [split; [reflexivity | now left] |].
  destruct (find _ (users w)) as [user |]; [| split; [reflexivity | now left]].
  destruct (fault_at 2 w); (split; [reflexivity |]); [now left |].
  right. now exists user.
Qed.

(** X13.  A submitted complaint shows up in its owner's listing whether or
    not the owner's complaint list was updated: when no storage call and
    no decode fails during the listing, the listing by the owner's code
    after a successful submission is the listing before it with the
    created complaint added at the end. *)
Theorem submitted_complaint_is_listed (w : World) (body : Complaint)
    (secretCode : string) (owner : User) :
  find (match_user (USecretCode secretCode)) (users w) = Some owner ->
  uID owner = cUserID body ->
  fault_at 0 w = false ->
  ~ In (next_oid w) (map cID (complaints w)) ->
  let w' := after (submitComplaintHandler (Decoded body)) w in
  no_failure w' ->
  response (getAllComplaintsForUserHandler secretCode) w'
  = Json (JComplaints
            (filter (match_complaint (CUserId (uID owner))) (complaints w)
             ++ [created_complaint w body])).
Proof.
  intros Hfind Hown Hok Hfresh w' Hw'.
  destruct (submit_leaves w body Hok Hfresh) as [Hcs Hus]. fold w' in Hcs, Hus.
  assert (Hfind' : exists owner', find (match_user (USecretCode secretCode)) (users w')
                                  = Some owner' /\ uID owner' = uID owner).
  { destruct Hus as [-> | [user ->]]; [now exists owner |].
    destruct (find_update_first_cases (match_user (UId (uID user)))
                (match_user (USecretCode secretCode))
                (set_uComplaints (uComplaints user ++ [next_oid w]))
                (users w) owner) as [H | H]; [reflexivity | exact Hfind | |];
      eexists; split; try exact H; reflexivity. }
  destruct Hfind' as (owner' & Hfind' & Hid).
  unfold response. rewrite getAllComplaintsForUserHandler_run.
  rewrite (proj1 Hw' 0%nat), Hfind', Hid.
  pose proof (listing_no_failure (CUserId (uID owner)) _
                (no_failure_world_after w' (users w') (complaints w') 0 0 1
                   [CallFindOne "users"] Hw')) as Hlist.
  unfold response in Hlist. rewrite Hlist.
  unfold world_after. cbn [complaints].
  rewrite Hcs, filter_app. cbn [filter match_complaint].
  cbn [created_complaint cUserID]. rewrite <- Hown, N.eqb_refl. reflexivity.
Qed.

Lemma submitted_complaint_is_listed_witness :
  response (getAllComplaintsForUserHandler "234567")
           (after (submitComplaintHandler (Decoded forged_complaint)) world_update_fails)
  = Json (JComplaints [sample_complaint; mkComplaint 8%N "T" "s" 3 false 5%N]).
Proof.
  apply (submitted_complaint_is_listed world_update_fails forged_complaint
           "234567" (set_uComplaints [7%N] sample_user)).
  - reflexivity.
  - reflexivity.
  - reflexivity.
  - cbn. intros [H | []]. discriminate.
  - assert (Hf : faults (after (submitComplaintHandler (Decoded forged_complaint))
                               world_update_fails) = [])
      by (vm_compute; reflexivity).
    assert (Hd : decodes (after (submitComplaintHandler (Decoded forged_complaint))
                                world_update_fails) = [])
      by (vm_compute; reflexivity).
    split; intros k; unfold fault_at, decode_fails_at; rewrite ?Hf, ?Hd;
      destruct k; reflexivity.
Defined.

(** X14.  A submitted complaint can be viewed at once: after a successful
    submission, a view with any string that parses to the generated
    identifier is answered with the created complaint, [resolved = false]. *)
Theorem submitted_complaint_is_viewable (w : World) (body : Complaint)
    (complaintId : string) :
  ObjectIDFromHex complaintId = Ok (next_oid w) ->
  fault_at 0 w = false ->
  ~ In (next_oid w) (map cID (complaints w)) ->
  let w' := after (submitComplaintHandler (Decoded body)) w in
  fault_at 0 w' = false ->
  response (viewComplaintHandler complaintId) w'
  = Json (JComplaint (created_complaint w body)) /\
  cResolved (created_complaint w body) = false.
Proof.
  intros Hparse Hok Hfresh w' Hok0.
  destruct (submit_leaves w body Hok Hfresh) as [Hcs _]. fold w' in Hcs.
  split; [| reflexivity].
  unfold response. rewrite viewComplaintHandler_run, Hparse, Hok0, Hcs.
  rewrite (find_first (match_complaint (CId (next_oid w))) (complaints w) []
             (created_complaint w body)); [reflexivity | |].
  - apply find_none_iff. now apply find_complaint_no_id.
  - cbn [match_complaint created_complaint cID]. apply N.eqb_refl.
Qed.

Lemma submitted_complaint_is_viewable_witness :
  response (viewComplaintHandler sample_id)
           (after (submitComplaintHandler (Decoded forged_complaint)) world_user)
  = Json (JComplaint sample_complaint).
Proof.
  apply (submitted_complaint_is_viewable world_user forged_complaint sample_id).
  - reflexivity.
  - reflexivity.
  - cbn. tauto.
  - reflexivity.
Defined.

(** X15.  What a resolve returns is what the store then holds: whenever a
    resolve is answered with a complaint, that complaint has
    [resolved = true], the identifier [complaintId] parses to, and is the
    one a lookup by that identifier finds afterwards; the users and the
    number of complaints are unchanged. *)
Theorem resolve_answer_matches_store (w : World) (complaintId : string)
    (c' : Complaint) :
  response (resolveComplaintHandler complaintId) w = Json (JComplaint c') ->
  let w' := after (resolveComplaintHandler complaintId) w in
  ObjectIDFromHex complaintId = Ok (cID c') /\
  cResolved c' = true /\
  find (match_complaint (CId (cID c'))) (complaints w') = Some c' /\
  users w' = users w /\
  List.length (complaints w') = List.length (complaints w).
Proof.
  unfold response, after. rewrite resolveComplaintHandler_run.
  destruct (ObjectIDFromHex complaintId) as [oid | e]; [| discriminate].
  destruct (fault_at 0 w); [discriminate |].
  destruct (find _ (complaints w)) as [c |] eqn:Hfind; [| discriminate].
  destruct (fault_at 1 w); [discriminate |].
  cbn [fst snd]. intros [= <-]. unfold world_after. cbn [users complaints].
  pose proof (find_some _ _ Hfind) as [_ Hm].
  cbn [match_complaint] in Hm. apply N.eqb_eq in Hm.
  cbn [set_cResolved cID cResolved]. rewrite Hm. repeat split.
  - now apply find_update_first.
  - apply length_update_first.
Qed.

Lemma resolve_answer_matches_store_witness :
  find (match_complaint (CId 7%N))
       (complaints (after (resolveComplaintHandler sample_id) world_complaint))
  = Some (mkComplaint 7%N "T" "s" 3 true 5%N).
Proof.
  apply (resolve_answer_matches_store world_complaint sample_id
           (mkComplaint 7%N "T" "s" 3 true 5%N)).
  reflexivity.
Defined.

(* ===================================================================== *)
(** ** Identifiers as text *)

Lemma hex_decode_bad_char (pre post : string) (c : ascii) :
  hex_digit c = None ->
  forall acc, hex_decode (pre ++ String c post) acc = None.
Proof.
  intros Hc. induction pre as [| b pre IH]; intros acc;
    cbn [String.append hex_decode].
  - now rewrite Hc.
  - destruct (hex_digit b); [apply IH | reflexivity].
Qed.

(** X16.  An identifier that is not 24 characters long, or that has a
    character that is no hexadecimal digit, never reaches the store: both
    the view and the resolve are answered 400 "Invalid complaint ID" and
    leave the world exactly as it was.  An absent [complaintId] parameter
    reads as the empty string and is such an identifier. *)
Theorem malformed_ids_are_rejected (w : World) (complaintId : string) :
  (String.length complaintId <> 24%nat \/
   exists pre c post, complaintId = (pre ++ String c post)%string
                      /\ hex_digit c = None) ->
  viewComplaintHandler complaintId w
  = (HttpError "Invalid complaint ID" StatusBadRequest, w) /\
  resolveComplaintHandler complaintId w
  = (HttpError "Invalid complaint ID" StatusBadRequest, w).
Proof.
  intros Hbad.
  assert (Hparse : ObjectIDFromHex complaintId = Err ErrInvalidHex).
  { unfold ObjectIDFromHex. destruct Hbad as [Hlen | (pre & c & post & -> & Hc)].
    - apply Nat.eqb_neq in Hlen. now rewrite Hlen.
    - rewrite (hex_decode_bad_char _ _ _ Hc). now destruct (_ =? 24)%nat. }
  now rewrite viewComplaintHandler_run, resolveComplaintHandler_run, Hparse.
Qed.

Lemma malformed_ids_are_rejected_witness :
  viewComplaintHandler "" world_complaint
  = (HttpError "Invalid complaint ID" StatusBadRequest, world_complaint) /\
  resolveComplaintHandler "00000000000000000000000g" world_complaint
  = (HttpError "Invalid complaint ID" StatusBadRequest, world_complaint).
Proof.
  split.
  - apply (malformed_ids_are_rejected world_complaint ""). left. discriminate.
  - apply (malformed_ids_are_rejected world_complaint "00000000000000000000000g").
    right. exists "00000000000000000000000"%string, "g"%char, ""%string.
    split; reflexivity.
Defined.

Lemma hex_digit_hex_char (d : N) :
  (d < 16)%N -> hex_digit (hex_char d) = Some d.
Proof.
  intros Hd.
  assert (Hcase : (d = 0 \/ d = 1 \/ d = 2 \/ d = 3 \/ d = 4 \/ d = 5 \/ d = 6
                  \/ d = 7 \/ d = 8 \/ d = 9 \/ d = 10 \/ d = 11 \/ d = 12
                  \/ d = 13 \/ d = 14 \/ d = 15)%N) by lia.
  repeat (destruct Hcase as [-> | Hcase]; [reflexivity |]).
  subst d; reflexivity.
Qed.

Lemma hex_digit_bound (c : ascii) (d : N) :
  hex_digit c = Some d -> (d < 16)%N.
Proof.
  unfold hex_digit. generalize (N_of_ascii c). intros k.
  destruct (N.leb_spec 48 k), (N.leb_spec k 57); cbn [andb];
    try (intros [= <-]; lia);
    destruct (N.leb_spec 97 k), (N.leb_spec k 102); cbn [andb];
    try (intros [= <-]; lia);
    destruct (N.leb_spec 65 k), (N.leb_spec k 70); cbn [andb];
    try (intros [= <-]; lia); discriminate.
Qed.

Lemma hex_decode_bound (s : string) :
  forall acc n m,
    hex_decode s acc = Some n -> (acc < m)%N ->
    (n < m * 16 ^ N.of_nat (String.length s))%N.
Proof.
  induction s as [| c s IH]; intros acc n m; cbn [hex_decode String.length].
  - intros [= <-] Hacc. change (16 ^ N.of_nat 0)%N with 1%N. lia.
  - destruct (hex_digit c) as [d |] eqn:Hd; [| discriminate].
    intros Hdec Hacc. apply hex_digit_bound in Hd.
    rewrite Nat2N.inj_succ, N.pow_succ_r'.
    specialize (IH _ _ (16 * m)%N Hdec). lia.
Qed.

Lemma length_hex_digits (k : nat) :
  forall n acc, String.length (hex_digits k n acc) = (k + String.length acc)%nat.
Proof.
  induction k as [| k IH]; intros n acc; cbn [hex_digits]; [reflexivity |].
  rewrite IH. cbn [String.length]. lia.
Qed.

Lemma hex_decode_hex_digits (k : nat) :
  forall n acc a,
    hex_decode (hex_digits k n acc) a
    = hex_decode acc (a * 16 ^ N.of_nat k + n mod 16 ^ N.of_nat k)%N.
Proof.
  induction k as [| k IH]; intros n acc a; cbn [hex_digits].
  - change (16 ^ N.of_nat 0)%N with 1%N. rewrite N.mod_1_r. f_equal. lia.
  - rewrite IH. cbn [hex_decode].
    rewrite hex_digit_hex_char by (apply N.mod_lt; lia).
    f_equal. rewrite Nat2N.inj_succ, N.pow_succ_r'.
    rewrite (N.Div0.mod_mul_r n 16). lia.
Qed.

(** X17.  Identifiers survive the trip through text: the 24 hexadecimal
    digits in which a twelve-byte identifier is written parse back to the
    same identifier, and whatever [ObjectIDFromHex] accepts is 24
    characters long and fits in twelve bytes. *)
Theorem identifier_text_round_trip (oid : ObjectID) (s : string) :
  ((oid < 2 ^ 96)%N -> ObjectIDFromHex (ObjectID_Hex oid) = Ok oid) /\
  (ObjectIDFromHex s = Ok oid -> String.length s = 24%nat /\ (oid < 2 ^ 96)%N).
Proof.
  split.
  - intros Hoid. unfold ObjectIDFromHex, ObjectID_Hex.
    rewrite length_hex_digits, hex_decode_hex_digits. cbn [String.length Nat.add].
    cbn [Nat.eqb hex_decode].
    change (16 ^ N.of_nat 24)%N with (2 ^ 96)%N.
    rewrite N.mod_small by exact Hoid.
    now rewrite N.mul_0_l, N.add_0_l.
  - unfold ObjectIDFromHex.
    destruct (Nat.eqb_spec (String.length s) 24) as [Hlen | _]; [| discriminate].
    destruct (hex_decode s 0) as [n |] eqn:Hdec; [| discriminate].
    intros [= ->]. split; [exact Hlen |].
    pose proof (hex_decode_bound s 0 oid 1 Hdec) as Hb.
    rewrite Hlen in Hb. change (1 * 16 ^ N.of_nat 24)%N with (2 ^ 96)%N in Hb.
    apply Hb. lia.
Qed.

Lemma identifier_text_round_trip_witness :
  ObjectIDFromHex (ObjectID_Hex 7%N) = Ok 7%N /\ ObjectID_Hex 7%N = sample_id.
Proof.
  split; [| reflexivity].
  apply (identifier_text_round_trip 7%N ""). reflexivity.
Defined.

(* ===================================================================== *)
(** ** What is never repaired, and what errors cost *)

Lemma nth_error_update_first {A : Type} (p : A -> bool) (f : A -> A) (l : list A) :
  forall (i : nat) (a : A),
    nth_error l i = Some a ->
    nth_error (update_first p f l) i = Some a \/
    (find p l = Some a /\ nth_error (update_first p f l) i = Some (f a)).
Proof.
  induction l as [| b l IH]; intros i a; [now destruct i |].
  cbn [update_first find]. destruct (p b) eqn:Hpb.
  - destruct i as [| i]; cbn [nth_error].
    + intros [= ->]. now right.
    + now left.
  - destruct i as [| i]; cbn [nth_error]; [now left | apply IH].
Qed.

Lemma transition_keeps_complaint_ids (w w' : World) (k : ObjectID) :
  transition w w' -> In k (map cID (complaints w)) -> In k (map cID (complaints w')).
Proof.
  intros [_ -> | body _ _ -> | body _ _ -> | body user _ _ _ -> | oid c _ _ ->] Hk;
    try assumption.
  - rewrite map_app, in_app_iff. now left.
  - rewrite map_app, in_app_iff. now left.
  - now rewrite map_update_first.
Qed.

(** X18.  A missing back-reference is never repaired.  When a stored
    complaint's identifier is absent from a stored user's complaint list
    (as after a submission whose update of the list failed), it is still
    absent from that user's list after any run of requests: nothing
    re-reads the complaints to reconcile the lists. *)
Theorem lost_back_reference_is_never_repaired (rs : list Request) (w : World)
    (i : nat) (u : User) (k : ObjectID) :
  nth_error (users w) i = Some u ->
  In k (map cID (complaints w)) ->
  ~ In k (uComplaints u) ->
  exists u', nth_error (users (after (serve_all rs) w)) i = Some u' /\
             uID u' = uID u /\ ~ In k (uComplaints u').
Proof.
  intros Hnth Hk Hnot.
  apply (serve_all_invariant
           (fun w' => In k (map cID (complaints w')) /\
                      exists u', nth_error (users w') i = Some u' /\
                                 uID u' = uID u /\ ~ In k (uComplaints u')));
    [| split; [exact Hk | now exists u]].
  clear. intros w w' Ht [Hk (u' & Hnth & Hid & Hnot)].
  split; [now apply (transition_keeps_complaint_ids w) |].
  destruct Ht as [-> _ | body _ -> _ | body _ -> _ | body user Hfresh Hfind -> _
                  | oid c _ -> _]; try (now exists u').
  - exists u'. repeat split; try assumption.
    rewrite nth_error_app1; [exact Hnth |].
    apply nth_error_Some. congruence.
  - destruct (nth_error_update_first (match_user (UId (uID user)))
                (set_uComplaints (uComplaints user ++ [next_oid w])) _ _ _ Hnth)
      as [H | [Hf H]].
    + now exists u'.
    + eexists. split; [exact H |]. split; [exact Hid |].
      destruct (find_user_id _ _ _ Hfind) as [_ Huid].
      rewrite <- Huid in Hfind. assert (u' = user) by congruence. subst u'.
      cbn [set_uComplaints uComplaints]. rewrite in_app_iff.
      intros [Hin | [<- | []]]; contradiction.
Qed.

Lemma lost_back_reference_is_never_repaired_witness :
  exists u', nth_error (users (after (serve_all sample_requests) world_orphan)) 0
             = Some u' /\ uID u' = 5%N /\ ~ In 7%N (uComplaints u').
Proof.
  apply (lost_back_reference_is_never_repaired sample_requests world_orphan 0
           sample_user 7%N).
  - reflexivity.
  - cbn. now left.
  - intros [].
Defined.

(** X19.  What an error status tells about the work done.  A request
    answered 400 has not contacted the store and has consumed nothing: the
    world is exactly as before.  A request answered 404 has only read:
    both collections are unchanged, no identifier and no random number
    was drawn, and every storage call was a [FindOne]. *)
Theorem error_status_bounds_the_work (r : Request) (w : World) (msg : string) :
  (response (serve r) w = HttpError msg StatusBadRequest ->
   after (serve r) w = w) /\
  (response (serve r) w = HttpError msg StatusNotFound ->
   let w' := after (serve r) w in
   users w' = users w /\ complaints w' = complaints w /\
   oids w' = oids w /\ rands w' = rands w /\
   calls (serve r) w = [CallFindOne
                          (match r with
                           | GET_login _ | GET_getAllComplaintsForUser _ => "users"
                           | _ => "complaints"
                           end)]).
Proof.
  unfold response, after, calls, after.
  destruct r as [s | [m | b] | [m | b] | s | | s | s]; cbn [serve].
  - rewrite loginHandler_run. cbn [fst snd].
    split; [destruct (fault_at 0 w); [| destruct (find _ (users w))]; discriminate |].
    intros _. unfold world_after. cbn [users complaints oids rands trace skipn].
    now rewrite skipn_app_length.
  - cbn [fst snd]. split; [reflexivity | discriminate].
  - rewrite registerHandler_run.
    destruct (fault_at 0 w); [| destruct (existsb _ (users w))];
      split; discriminate.
  - cbn [fst snd]. split; [reflexivity | discriminate].
  - rewrite submitComplaintHandler_run. cbv zeta.
    destruct (fault_at 0 w); [split; discriminate |].
    destruct (existsb _ (complaints w)); [split; discriminate |].
    destruct (fault_at 1 w); [split; discriminate |].
    destruct (find _ (users w)); [| split; discriminate].
    destruct (fault_at 2 w); split; discriminate.
  - rewrite getAllComplaintsForUserHandler_run.
    destruct (fault_at 0 w).
    + split; [discriminate |]. intros _. unfold world_after.
      cbn [snd users complaints oids rands trace skipn].
      now rewrite skipn_app_length.
    + destruct (find _ (users w)).
      * split; intros H; exfalso;
          [now apply listing_not_400 in H | now apply listing_not_404 in H].
      * split; [discriminate |]. intros _. unfold world_after.
        cbn [snd users complaints oids rands trace skipn].
        now rewrite skipn_app_length.
  - rewrite getAllComplaintsForAdminHandler_run.
    split; intros H; exfalso;
      [now apply listing_not_400 in H | now apply listing_not_404 in H].
  - rewrite viewComplaintHandler_run.
    destruct (ObjectIDFromHex s) as [oid | e]; cbn [fst snd].
    + split; [destruct (fault_at 0 w); [| destruct (find _ (complaints w))];
              discriminate |].
      intros _. unfold world_after. cbn [users complaints oids rands trace skipn].
      now rewrite skipn_app_length.
    + split; [reflexivity | discriminate].
  - rewrite resolveComplaintHandler_run.
    destruct (ObjectIDFromHex s) as [oid | e]; cbn [fst snd].
    + destruct (fault_at 0 w).
      * split; [discriminate |]. intros _. unfold world_after.
        cbn [snd users complaints oids rands trace skipn].
        now rewrite skipn_app_length.
      * destruct (find _ (complaints w)).
        -- destruct (fault_at 1 w); split; discriminate.
        -- split; [discriminate |]. intros _. unfold world_after.
           cbn [snd users complaints oids rands trace skipn].
           now rewrite skipn_app_length.
    + split; [reflexivity | discriminate].
Qed.

Lemma error_status_bounds_the_work_witness :
  after (serve (POST_register (Malformed "unexpected EOF"))) world_user = world_user /\
  calls (serve (POST_resolveComplaint sample_id)) world_user
  = [CallFindOne "complaints"].
Proof.
  split.
  - apply (error_status_bounds_the_work
             (POST_register (Malformed "unexpected EOF")) world_user
             "unexpected EOF").
    reflexivity.
  - apply (error_status_bounds_the_work (POST_resolveComplaint sample_id)
             world_user "Complaint not found").
    reflexivity.
Defined.

Lemma find_unique_id (cs : list Complaint) (c : Complaint) :
  NoDup (map cID cs) -> In c cs ->
  find (match_complaint (CId (cID c))) cs = Some c.
Proof.
  induction cs as [| b cs IH]; [intros _ [] |].
  cbn [map find match_complaint In]. intros Hnd [-> | Hin].
  - now rewrite N.eqb_refl.
  - inversion Hnd as [| x l Hb Hnd']; subst.
    destruct (N.eqb_spec (cID b) (cID c)) as [Heq | _]; [| now apply IH].
    exfalso. apply Hb. rewrite Heq. now apply in_map.
Qed.

(** X20.  With unique identifiers there is no ambiguity in a view: in a
    store that started with unique identifiers, after any run of
    requests, a view with a string that parses to the identifier of a
    stored complaint is answered with exactly that complaint, when the
    lookup does not fail. *)
Theorem view_returns_the_complaint (rs : list Request) (w : World)
    (complaintId : string) (c : Complaint) :
  ids_unique w ->
  let w' := after (serve_all rs) w in
  In c (complaints w') ->
  ObjectIDFromHex complaintId = Ok (cID c) ->
  fault_at 0 w' = false ->
  response (viewComplaintHandler complaintId) w' = Json (JComplaint c).
Proof.
  intros Huniq w' Hin Hparse Hok.
  assert (Huniq' : ids_unique w')
    by (apply serve_all_invariant; [exact transition_ids_unique | exact Huniq]).
  unfold response. rewrite viewComplaintHandler_run, Hparse, Hok.
  now rewrite (find_unique_id _ _ (proj2 Huniq') Hin).
Qed.

Lemma view_returns_the_complaint_witness :
  response (viewComplaintHandler sample_id)
           (after (serve_all scenario_requests) world_fresh)
  = Json (JComplaint (mkComplaint 7%N "T" "s" 3 true 5%N)).
Proof.
  apply (view_returns_the_complaint scenario_requests world_fresh sample_id
           (mkComplaint 7%N "T" "s" 3 true 5%N)).
  - split; constructor.
  - vm_compute. now left.
  - reflexivity.
  - vm_compute. reflexivity.
Defined.

(** X21.  A submission touches no user but its owner: whatever happens in
    the request, every stored user whose identifier is not the body's
    [userId] is afterwards exactly as it was, at the same place. *)
Theorem submission_touches_only_its_owner (w : World) (body : Complaint)
    (i : nat) (u : User) :
  nth_error (users w) i = Some u ->
  uID u <> cUserID body ->
  nth_error (users (after (submitComplaintHandler (Decoded body)) w)) i = Some u.
Proof.
  intros Hnth Hother. unfold after. rewrite submitComplaintHandler_run. cbv zeta.
  destruct (fault_at 0 w); [exact Hnth |].
  destruct (existsb _ (complaints w)); [exact Hnth |].
  destruct (fault_at 1 w); [exact Hnth |].
  destruct (find _ (users w)) as [user |] eqn:Hfind; [| exact Hnth].
  destruct (fault_at 2 w); [exact Hnth |].
  unfold world_after. cbn [snd users].
  destruct (nth_error_update_first (match_user (UId (uID user)))
              (set_uComplaints (uComplaints user ++ [next_oid w])) _ _ _ Hnth)
    as [H | [Hf _]]; [exact H |].
  destruct (find_user_id _ _ _ Hfind) as [_ Hid1].
  destruct (find_user_id _ _ _ Hf) as [_ Hid2]. congruence.
Qed.

Lemma submission_touches_only_its_owner_witness :
  nth_error (users (after (submitComplaintHandler
                             (Decoded (mkComplaint 0%N "T" "s" 3 false 6%N)))
                          world_user)) 0
  = Some sample_user.
Proof.
  apply (submission_touches_only_its_owner world_user
           (mkComplaint 0%N "T" "s" 3 false 6%N) 0 sample_user).
  - reflexivity.
  - discriminate.
Defined.
